(** * Schema flattening and query-type derivation over Zod schemas

    A shallow embedding of the type-level utilities of
    [crud-zod-type-utils] (flattening, query types, populate fields,
    pick/merge of object schemas), of the runtime [getFilterSchema], and of
    the metadata assembly of [createCrudRouter].

    The TypeScript source computes on _types of schemas_ ([ZodString],
    [ZodObject<Shape, Config>], ...).  Those types form a tree, which is the
    inductive type [ZodType] below; a conditional type [T extends ZodX<...> ?
    a : b] becomes a [match] on the head constructor of [T]. *)

From Stdlib Require Import String List Bool ZArith Lia.
From stdpp Require Import base option list strings gmap.

Import ListNotations.
Local Open Scope string_scope.
Local Open Scope list_scope.

#[local] Set Warnings "-register-all".

(** ** Data model *)

(** The [Config] parameter of [ZodObject<Shape, Config>]: what an object
    schema does with keys that are not in its shape ([z.object] strips them,
    [z.strictObject] rejects them, [z.looseObject] keeps them). *)
Inductive Config : Type :=
  | strip
  | strict
  | loose.

(** Schema types.  [ZodCustomDateTime] is a schema whose inferred type is
    luxon's [DateTime] (as [z.custom<DateTime>()]); [ZodTypeAny] is the
    unconstrained schema type [z.ZodTypeAny].  An object shape is the ordered
    list of its fields. *)
Inductive ZodType : Type :=
  | ZodString
  | ZodNumber
  | ZodBoolean
  | ZodDate
  | ZodCustomDateTime
  | ZodLiteral (v : string)
  | ZodEnum (vs : list string)
  | ZodNever
  | ZodTypeAny
  | ZodArray (element : ZodType)
  | ZodOptional (inner : ZodType)
  | ZodNullable (inner : ZodType)
  | ZodRecord (key value : ZodType)
  | ZodUnion (options : list ZodType)
  | ZodObject (shape : list (string * ZodType)) (config : Config).

(** The shape of an object schema: its fields, in order.  The keys of an
    object are distinct, so a shape read from a schema lists each key once. *)
Definition Shape : Type := list (string * ZodType).

Definition keys {A : Type} (s : list (string * A)) : list string := map fst s.

(** [shape[K]]: the first field named [K]. *)
Fixpoint shape_get {A : Type} (s : list (string * A)) (K : string) : option A :=
  match s with
  | [] => None
  | (k, t) :: r => if String.eqb k K then Some t else shape_get r K
  end.

Definition has_key {A : Type} (s : list (string * A)) (K : string) : bool :=
  existsb (String.eqb K) (keys s).

Definition is_ZodObject (T : ZodType) : bool :=
  match T with ZodObject _ _ => true | _ => false end.

(** Induction over schema trees, with the hypotheses for the members of a
    union and the fields of an object. *)
Section ZodType_induction.
Variable P : ZodType -> Prop.
Hypothesis HString : P ZodString.
Hypothesis HNumber : P ZodNumber.
Hypothesis HBoolean : P ZodBoolean.
Hypothesis HDate : P ZodDate.
Hypothesis HDateTime : P ZodCustomDateTime.
Hypothesis HLiteral : forall v, P (ZodLiteral v).
Hypothesis HEnum : forall vs, P (ZodEnum vs).
Hypothesis HNever : P ZodNever.
Hypothesis HAny : P ZodTypeAny.
Hypothesis HArray : forall t, P t -> P (ZodArray t).
Hypothesis HOptional : forall t, P t -> P (ZodOptional t).
Hypothesis HNullable : forall t, P t -> P (ZodNullable t).
Hypothesis HRecord : forall k v, P k -> P v -> P (ZodRecord k v).
Hypothesis HUnion : forall opts, Forall P opts -> P (ZodUnion opts).
Hypothesis HObject :
  forall shape cfg, Forall (fun f => P (snd f)) shape -> P (ZodObject shape cfg).

Fixpoint ZodType_ind_nested (T : ZodType) : P T :=
  match T with
  | ZodString => HString
  | ZodNumber => HNumber
  | ZodBoolean => HBoolean
  | ZodDate => HDate
  | ZodCustomDateTime => HDateTime
  | ZodLiteral v => HLiteral v
  | ZodEnum vs => HEnum vs
  | ZodNever => HNever
  | ZodTypeAny => HAny
  | ZodArray t => HArray t (ZodType_ind_nested t)
  | ZodOptional t => HOptional t (ZodType_ind_nested t)
  | ZodNullable t => HNullable t (ZodType_ind_nested t)
  | ZodRecord k v => HRecord k v (ZodType_ind_nested k) (ZodType_ind_nested v)
  | ZodUnion opts =>
      HUnion opts
        ((fix members (l : list ZodType) : Forall P l :=
            match l with
            | [] => List.Forall_nil P
            | t :: r => @List.Forall_cons _ P t r (ZodType_ind_nested t) (members r)
            end) opts)
  | ZodObject shape cfg =>
      HObject shape cfg
        ((fix fields (l : Shape) : Forall (fun f => P (snd f)) l :=
            match l with
            | [] => List.Forall_nil _
            | f :: r => @List.Forall_cons _ _ f r (ZodType_ind_nested (snd f)) (fields r)
            end) shape)
  end.
End ZodType_induction.

(** ** [UnwrapZodType]

    [T extends ZodOptional<infer U> ? UnwrapZodType<U>
       : T extends ZodNullable<infer U> ? UnwrapZodType<U> : T]. *)
Fixpoint UnwrapZodType (T : ZodType) : ZodType :=
  match T with
  | ZodOptional U => UnwrapZodType U
  | ZodNullable U => UnwrapZodType U
  | _ => T
  end.

(** ** Relational-operator ("LHS") schemas

    Built with [z.object], hence with the [strip] configuration. *)
Definition LHSDateSchema : ZodType :=
  ZodObject
    [ ("in", ZodOptional (ZodArray ZodDate));
      ("notIn", ZodOptional (ZodArray ZodDate));
      ("gt", ZodOptional ZodDate);
      ("gte", ZodOptional ZodDate);
      ("lt", ZodOptional ZodDate);
      ("lte", ZodOptional ZodDate) ] strip.

Definition LHSStringSchema : ZodType :=
  ZodObject
    [ ("in", ZodOptional (ZodArray ZodString));
      ("notIn", ZodOptional (ZodArray ZodString));
      ("contains", ZodOptional ZodString);
      ("startsWith", ZodOptional ZodString);
      ("endsWith", ZodOptional ZodString) ] strip.

Definition LHSNumberSchema : ZodType :=
  ZodObject
    [ ("in", ZodOptional (ZodArray ZodNumber));
      ("notIn", ZodOptional (ZodArray ZodNumber));
      ("gt", ZodOptional ZodNumber);
      ("gte", ZodOptional ZodNumber);
      ("lt", ZodOptional ZodNumber);
      ("lte", ZodOptional ZodNumber) ] strip.

(** ** [QueryTypes]

    The first test of [QueryTypes] is on the inferred type:
    [z.infer<T> extends DateTime<boolean>].  [infer_extends_DateTime T] decides
    it: the custom [DateTime] schema infers [DateTime]; [ZodNever] and an enum
    without entries infer [never], which extends every type; a union infers
    the union of what its members infer, which extends [DateTime] when each of
    them does; [T | undefined], [T | null], arrays, records, objects, strings,
    numbers, booleans and JavaScript [Date] do not extend [DateTime].  For
    [ZodTypeAny] the inferred type is [any], on which TypeScript evaluates
    both branches; the embedding follows the false branch there. *)
Fixpoint infer_extends_DateTime (T : ZodType) : bool :=
  match T with
  | ZodCustomDateTime => true
  | ZodNever => true
  | ZodEnum vs => match vs with [] => true | _ => false end
  | ZodUnion opts =>
      (fix all (l : list ZodType) : bool :=
         match l with
         | [] => true
         | t :: r => infer_extends_DateTime t && all r
         end) opts
  | _ => false
  end.

Definition QueryTypes (T : ZodType) : ZodType :=
  if infer_extends_DateTime T then
    ZodUnion [ZodDate; ZodArray ZodDate; LHSDateSchema]
  else
    match T with
    | ZodString => ZodUnion [ZodString; ZodArray ZodString; LHSStringSchema]
    | ZodNumber => ZodUnion [ZodNumber; ZodArray ZodNumber; LHSNumberSchema]
    | ZodBoolean => T
    | _ => ZodUnion [T; ZodArray T]
    end.

(** ** [getFilterSchema] (runtime)

    [instanceof] tests on the schema's class. *)
Definition getFilterSchema (type : ZodType) : ZodType :=
  match type with
  | ZodString => ZodUnion [type; ZodArray type; LHSStringSchema]
  | ZodNumber => ZodUnion [type; ZodArray type; LHSNumberSchema]
  | ZodDate => ZodUnion [type; ZodArray type; LHSDateSchema]
  | _ => ZodUnion [type; ZodArray type]
  end.

(** ** The flattener

    The [Depth] argument is a numeric type: a literal, or [number] itself.
    [Increment<N>] is [[...Array<N>, 0]["length"]]; [Array<N>] is the array
    type [N[]] (elements of type [N]), not a tuple of [N] elements, so the
    spread gives the open-ended tuple [[...N[], 0]], whose [length] is
    [number], for every [N]. *)
Inductive Depth : Type :=
  | DepthLit (n : nat)
  | DepthNumber.

Definition Increment (N : Depth) : Depth := DepthNumber.

(** [Depth extends 1] *)
Definition Depth_extends_1 (D : Depth) : bool :=
  match D with
  | DepthLit 1 => true
  | _ => false
  end.

(** A flattened type is an intersection of single-property object types
    [{ [K in Path]: X }], kept as the list of its [(Path, X)] members, in
    the order of the shape.  When two members have the same path, the
    intersection has one property under that path, typed by the intersection
    of both values; the list keeps the two members. *)
Definition Flattened : Type := list (string * ZodType).

(** [FlattenZodFieldWithTypes<T, Path, Depth>].  The calls to
    [FlattenZodObjectWithTypes] and [FlattenUnionObjects] on the object and
    union branches are unfolded in place, so that the recursion is structural
    in [T]; [FlattenZodFieldWithTypes_object] and
    [FlattenZodFieldWithTypes_union] below give the branches back as the calls
    of the source. *)
Fixpoint FlattenZodFieldWithTypes (T : ZodType) (Path : string) (D : Depth)
    {struct T} : Flattened :=
  if Depth_extends_1 D then [(Path, QueryTypes T)]
  else
    match T with
    | ZodOptional Inner => FlattenZodFieldWithTypes Inner Path D
    | ZodNullable Inner => FlattenZodFieldWithTypes Inner Path D
    | ZodObject shape _ =>
        if Depth_extends_1 D then [(Path +:+ "_", ZodTypeAny)]
        else
          (fix fields (s : Shape) : Flattened :=
             match s with
             | [] => []
             | (K, child) :: rest =>
                 FlattenZodFieldWithTypes child ((Path +:+ "_") +:+ K) (Increment D)
                 ++ fields rest
             end) shape
    | ZodUnion Options =>
        if forallb is_ZodObject Options then
          (fix members (l : list ZodType) : Flattened :=
             match l with
             | [] => []
             | member :: others =>
                 match member with
                 | ZodObject shape _ =>
                     if Depth_extends_1 (Increment D)
                     then [(Path +:+ "_", ZodTypeAny)]
                     else
                       (fix fields (s : Shape) : Flattened :=
                          match s with
                          | [] => []
                          | (K, child) :: rest =>
                              FlattenZodFieldWithTypes child ((Path +:+ "_") +:+ K)
                                (Increment (Increment D))
                              ++ fields rest
                          end) shape
                 | _ => [(Path +:+ "_", member)]
                 end ++ members others
             end) Options
        else [(Path, QueryTypes T)]
    | _ => [(Path, QueryTypes T)]
    end.

(** The union over the keys of a shape of the flattened fields, turned into
    an intersection: [UnionToIntersection<{ [K in keyof Shape]:
    FlattenZodFieldWithTypes<Shape[K], `${Path}${K}`, D> }[keyof Shape]>]. *)
Definition flatten_fields (shape : Shape) (Path : string) (D : Depth) : Flattened :=
  flat_map (fun f => FlattenZodFieldWithTypes (snd f) (Path +:+ fst f) D) shape.

(** [FlattenZodObjectWithTypes<T, Path, Depth>]; [None] is [never]. *)
Definition FlattenZodObjectWithTypes (T : ZodType) (Path : string) (D : Depth)
    : option Flattened :=
  if Depth_extends_1 D then Some [(Path, ZodTypeAny)]
  else
    match T with
    | ZodObject shape _ => Some (flatten_fields shape Path (Increment D))
    | _ => None
    end.

(** A [never] member disappears from a union. *)
Definition union_member (r : option Flattened) : Flattened :=
  match r with
  | Some m => m
  | None => []
  end.

(** [FlattenUnionObjects<T, Path, Depth>] on one member [T] of the union. *)
Definition FlattenUnionObjects (T : ZodType) (Path : string) (D : Depth)
    : option Flattened :=
  match T with
  | ZodObject _ _ => FlattenZodObjectWithTypes T Path D
  | _ => Some [(Path, T)]
  end.

(** [T["shape"]] and [T["_zod"]["config"]] of an object schema.  The type
    parameters that these are read from are constrained to object schemas; on
    another schema, which the constraint excludes, the shape is taken empty
    and the config to be [ZodObject]'s default. *)
Definition shape_of (T : ZodType) : Shape :=
  match T with
  | ZodObject shape _ => shape
  | _ => []
  end.

Definition config_of (T : ZodType) : Config :=
  match T with
  | ZodObject _ config => config
  | _ => strip
  end.

(** [UnionToIntersection<U>] on the result of the flattener.  A flattened
    type already is the intersection of its members, and is returned as it
    is.  On [never] the helper gives [Prettify<unknown>], the object type
    without properties [{}], that is the intersection of no member: it never
    evaluates to [never]. *)
Definition UnionToIntersection (U : option Flattened) : option Flattened :=
  match U with
  | Some m => Some m
  | None => Some []
  end.

(** [MergeFlattened<T>]: [UnionToIntersection] of the flattener at its
    default [Path] and [Depth].  The result is kept in the type of the
    flattener's results, although it is never [never]. *)
Definition MergeFlattened (T : ZodType) : option Flattened :=
  UnionToIntersection (FlattenZodObjectWithTypes T "" (DepthLit 0)).

(** [ZodShape<T>] keeps every property whose type is a schema type.  On the
    members of a flattened type with distinct paths this is the shape with
    these fields.  Two members under one path stand for a single property
    typed by an intersection of schema types, a type that [ZodType] does not
    have: the list is passed on with both members, and what is stated about
    flattening a flattened schema is stated for distinct paths. *)
Definition ZodShape (m : Flattened) : Shape := m.

(** [NestedZodKeysWithTypes<T>]:
    [ZodObject<ZodShape<MergeFlattened<T>>, T["_zod"]["config"]>]. *)
Definition NestedZodKeysWithTypes (T : ZodType) : option ZodType :=
  match MergeFlattened T with
  | Some m => Some (ZodObject (ZodShape m) (config_of T))
  | None => None
  end.

(** ** Populate fields *)

Section Populate.
(** TypeScript's strict-subtype test between two shape types.  It belongs
    to the type checker, not to the repository, and is a parameter here. *)
Variable isTypeStrictSubtypeOf : Shape -> Shape -> bool.

(** The subtype reduction of a union type: going from the last member to
    the first, a member is dropped when another member still present is a
    strict supertype of it.  [pending] holds the members not yet visited,
    last one first; [kept] the visited ones that stay.  (TypeScript orders
    the members of a union type itself; the statements below do not depend
    on the order.) *)
Fixpoint removeSubtypes_from (pending kept : list Shape) : list Shape :=
  match pending with
  | [] => kept
  | source :: before =>
      if existsb (isTypeStrictSubtypeOf source) (before ++ kept)
      then removeSubtypes_from before kept
      else removeSubtypes_from before (source :: kept)
  end.

Definition removeSubtypes (types : list Shape) : list Shape :=
  removeSubtypes_from (rev types) [].

(** [U[number] extends ZodObject<infer SUnion>]: the test holds when every
    member of the union is an object schema (the tested type is not a bare
    type parameter, so the test is made on the union as a whole), and
    [SUnion] is then inferred as the union of the members' shapes, subtype
    reduced.  The result is the list of the members of that union type. *)
Definition infer_SUnion (U : list ZodType) : option (list Shape) :=
  if forallb is_ZodObject U then Some (removeSubtypes (map shape_of U))
  else None.

(** [S extends { id: ZodType }]: a shape has a (required) property [id]. *)
Definition extends_id (S : Shape) : bool := has_key S "id".

(** One property of the mapped type [QueryPopulateFieldFilter<T>], for the
    key [K] with field schema [field]: [Some K] is [K], [None] is [never].
    In the union branch, [SUnion extends { id: ZodType } ? K : never] tests
    a type parameter (the inferred [SUnion]), so the conditional distributes
    over the members of [SUnion]: the result is the union of the branches
    taken, which is [K] as soon as one member has [id], and [never] when no
    member has. *)
Definition QueryPopulateFieldFilter_at (K : string) (field : ZodType)
    : option string :=
  match UnwrapZodType field with
  | ZodObject shape _ => if extends_id shape then Some K else None
  | ZodUnion U =>
      match infer_SUnion U with
      | Some SUnion => if existsb extends_id SUnion then Some K else None
      | None => None
      end
  | _ => None
  end.

(** [QueryPopulateFieldFilter<T>]: the mapped type over [keyof T["shape"]]. *)
Definition QueryPopulateFieldFilter (T : ZodType) : list (string * option string) :=
  map (fun f => (fst f, QueryPopulateFieldFilter_at (fst f) (snd f))) (shape_of T).

(** [keyof NonNeverKeys<X>]: the keys whose property is not [never]. *)
Definition NonNeverKeys (X : list (string * option string)) : list string :=
  flat_map (fun p => match snd p with Some _ => [fst p] | None => [] end) X.

(** The literals of [QueryPopulateFields<T>]. *)
Definition QueryPopulateFields (T : ZodType) : list string :=
  NonNeverKeys (QueryPopulateFieldFilter T).
End Populate.

(** The strict-subtype test read on the key sets of two shapes: a subtype
    has every property of its supertype, and a strict one has more.  It
    agrees with TypeScript's test on shapes whose common properties have the
    same schema type, and is used to run [QueryPopulateFields] on such
    examples. *)
Definition keys_strict_subtype (S1 S2 : Shape) : bool :=
  forallb (has_key S1) (keys S2) && negb (forallb (has_key S2) (keys S1)).

(** ** Pick and merge of object schemas *)

(** [PickZodObjectKeys<T, K, Optional>]: the properties of [T["shape"]]
    whose key is in [K[number]], each wrapped in [ZodOptional] when
    [Optional] is [true], under [T]'s config. *)
Definition PickZodObjectKeys (T : ZodType) (K : list string) (Optional : bool)
    : ZodType :=
  ZodObject
    (map (fun f => (fst f, if Optional then ZodOptional (snd f) else snd f))
         (List.filter (fun f => existsb (String.eqb (fst f)) K) (shape_of T)))
    (config_of T).

(** Modelled from the spec: the properties of the left shape that a merge
    keeps, those whose key is not a key of the right shape (part of Zod's
    [util.Extend], which is declared in the Zod library and not in the
    repository). *)
Definition Extend_kept (A B : Shape) : Shape :=
  List.filter (fun f => negb (has_key B (fst f))) A.

(** Modelled from the spec: Zod's [util.Extend<A, B>] is declared in the Zod
    library and not in the repository.  It merges two shapes left to right,
    the later keys overwriting the earlier ones: the properties of [A] whose
    key is not a key of [B], then the properties of [B]. *)
Definition Extend (A B : Shape) : Shape := Extend_kept A B ++ B.

(** [CombineZodObjects<A, B>] *)
Definition CombineZodObjects (A B : ZodType) : ZodType :=
  ZodObject (Extend (shape_of A) (shape_of B)) (config_of B).

(** ** Values and validation

    The values a schema is run on, and whether it accepts them.  Validation
    is Zod's (library code); it follows Zod's documented behaviour: a union
    accepts what one of its options accepts, an optional schema accepts
    [undefined], a nullable one [null], an object schema checks each property
    of its shape on the value found under that key ([undefined] when the key
    is absent) and, under [strict], refuses keys outside its shape, while
    under [strip] and [loose] it lets them pass.  An object schema runs on
    every value that is an object, not [null] and not an array: on a [Date]
    and on a luxon [DateTime] as on a plain object.  Numbers and dates are
    the finite, valid ones, carried as integers. *)
Inductive Value : Type :=
  | VUndefined
  | VNull
  | VString (s : string)
  | VNumber (n : Z)
  | VBoolean (b : bool)
  | VDate (ms : Z)
  | VDateTime (ms : Z)
  | VArray (items : list Value)
  | VObject (props : list (string * Value)).

(** [input[key]] *)
Definition prop (props : list (string * Value)) (key : string) : Value :=
  match shape_get props key with
  | Some v => v
  | None => VUndefined
  end.

(** A value as an object schema sees it: its own properties, and whether
    it has further own keys that are not modelled.  A [Date] has no own
    property.  A [DateTime] has own fields (its timestamp, zone, locale),
    which are not modelled and which no shape here is taken to name.
    Properties inherited from a prototype ([constructor], [toString], ...)
    are not modelled either, and shapes are taken not to name them.  A
    primitive, [null] and an array are no objects for the schema. *)
Definition as_object (v : Value) : option (list (string * Value) * bool) :=
  match v with
  | VObject props => Some (props, false)
  | VDate _ => Some ([], false)
  | VDateTime _ => Some ([], true)
  | _ => None
  end.

Fixpoint accepts (T : ZodType) (v : Value) {struct T} : bool :=
  match T with
  | ZodString => match v with VString _ => true | _ => false end
  | ZodNumber => match v with VNumber _ => true | _ => false end
  | ZodBoolean => match v with VBoolean _ => true | _ => false end
  | ZodDate => match v with VDate _ => true | _ => false end
  | ZodCustomDateTime => match v with VDateTime _ => true | _ => false end
  | ZodLiteral l => match v with VString s => String.eqb s l | _ => false end
  | ZodEnum vs => match v with VString s => existsb (String.eqb s) vs | _ => false end
  | ZodNever => false
  | ZodTypeAny => true
  | ZodArray element =>
      match v with
      | VArray items => forallb (accepts element) items
      | _ => false
      end
  | ZodOptional inner =>
      match v with
      | VUndefined => true
      | _ => accepts inner v
      end
  | ZodNullable inner =>
      match v with
      | VNull => true
      | _ => accepts inner v
      end
  | ZodRecord key value =>
      match v with
      | VObject props =>
          forallb (fun p => accepts key (VString (fst p)) && accepts value (snd p)) props
      | _ => false
      end
  | ZodUnion options =>
      (fix some (l : list ZodType) : bool :=
         match l with
         | [] => false
         | option :: others => accepts option v || some others
         end) options
  | ZodObject shape config =>
      match as_object v with
      | Some (props, further) =>
          (fix fields (s : Shape) : bool :=
             match s with
             | [] => true
             | (K, child) :: rest => accepts child (prop props K) && fields rest
             end) shape
          && match config with
             | strict => negb further && forallb (has_key shape) (keys props)
             | strip | loose => true
             end
      | None => false
      end
  end.

(** ** [createCrudRouter] *)

Module CrudRouter.

(** A route of the contract. *)
Record AppRoute : Type := mkAppRoute {
  method : string;
  path : string;
  summary : string
}.

(** The argument of [createCrudRouter]; an omitted (or [undefined])
    property is [None].  The schemas [entity], [create] and [update] and
    [filterBy] are not read by the function body. *)
Record Params : Type := mkParams {
  name : string;
  routes : option (gmap string AppRoute);
  authentication : option bool;
  metadata : option (gmap string Value)
}.

(** What the function hands to [c.router]: the merged routes and the
    options' [metadata]. *)
Record RouterArgs : Type := mkRouterArgs {
  mergedRoutes : gmap string AppRoute;
  options_metadata : gmap string Value
}.

(** A default value of a destructured parameter applies when the
    property is [undefined]. *)
Definition with_default {A : Type} (d : A) (x : option A) : A :=
  match x with
  | Some a => a
  | None => d
  end.

Definition baseRoutes (name : string) : gmap string AppRoute :=
  {[ "get" := mkAppRoute "GET" ("/" +:+ name +:+ "/:id") ("Get " +:+ name +:+ " by id") ]}.

(** An object spread [{ ...a, ...b }]: the properties of [b] overwrite
    those of [a] ([∪] on [gmap] prefers its left operand). *)
Definition spread {A : Type} (a b : gmap string A) : gmap string A := b ∪ a.

Definition createCrudRouter (p : Params) : RouterArgs :=
  let authentication := with_default true (authentication p) in
  let metadata := with_default ∅ (metadata p) in
  {| mergedRoutes := spread (baseRoutes (name p)) (with_default ∅ (routes p));
     options_metadata :=
       spread {[ "authentication" := VBoolean authentication ]} metadata |}.

End CrudRouter.

(** ** Predicates and examples used in the statements *)

(** The kinds of schema on which [FlattenZodFieldWithTypes] has no branch of
    its own: they are leaves. *)
Definition is_leaf_kind (T : ZodType) : bool :=
  match T with
  | ZodOptional _ | ZodNullable _ | ZodObject _ _ | ZodUnion _ => false
  | _ => true
  end.

(** A field is a nested object when its type, [ZodOptional] and
    [ZodNullable] unwrapped, is an object schema. *)
Definition nested_object (field : ZodType) : bool :=
  is_ZodObject (UnwrapZodType field).

(** The fields the flattener descends into: nested objects, and unions whose
    options are all objects ([Options[number] extends ZodObject<any>]). *)
Definition flattens_into (field : ZodType) : bool :=
  match UnwrapZodType field with
  | ZodObject _ _ => true
  | ZodUnion Options => forallb is_ZodObject Options
  | _ => false
  end.

(** The map a schema without such fields flattens to: each top-level key
    with the query type of its unwrapped field. *)
Definition query_shape (shape : Shape) : Flattened :=
  map (fun f => (fst f, QueryTypes (UnwrapZodType (snd f)))) shape.

(** Number of constructors of a schema tree. *)
Fixpoint size (T : ZodType) : nat :=
  match T with
  | ZodArray t | ZodOptional t | ZodNullable t => S (size t)
  | ZodRecord k v => S (size k + size v)
  | ZodUnion opts =>
      S ((fix sum (l : list ZodType) : nat :=
            match l with
            | [] => 0
            | t :: r => size t + sum r
            end) opts)
  | ZodObject shape _ =>
      S ((fix sum (l : Shape) : nat :=
            match l with
            | [] => 0
            | f :: r => size (snd f) + sum r
            end) shape)
  | _ => 1
  end.

(** The leaves that get a relational-operator object, and that object. *)
Definition relational_leaf (T : ZodType) : Prop :=
  T = ZodString \/ T = ZodNumber \/ T = ZodDate.

Definition operators (T : ZodType) : Shape :=
  match T with
  | ZodString => shape_of LHSStringSchema
  | ZodNumber => shape_of LHSNumberSchema
  | ZodDate => shape_of LHSDateSchema
  | _ => []
  end.

(** An object schema whose shape has a field named [id]. *)
Definition object_with_id (T : ZodType) : bool :=
  match T with
  | ZodObject shape _ => has_key shape "id"
  | _ => false
  end.

(** The selection rule of the specification: an object containing [id], or
    a union whose every member is an object containing [id]. *)
Definition spec_populate (field : ZodType) : bool :=
  match UnwrapZodType field with
  | ZodObject shape _ => has_key shape "id"
  | ZodUnion U => forallb object_with_id U
  | _ => false
  end.

(** [{a: string, b: {c: number}}] *)
Definition schema_a_b_c : ZodType :=
  ZodObject [("a", ZodString); ("b", ZodObject [("c", ZodNumber)] strip)] strip.

(** [{author: {id: string, name: string}, title: string}] and
    [{title: string}] *)
Definition schema_author_title : ZodType :=
  ZodObject
    [("author", ZodObject [("id", ZodString); ("name", ZodString)] strip);
     ("title", ZodString)] strip.

Definition schema_title : ZodType := ZodObject [("title", ZodString)] strip.

(** The schemas of the example of [mergeFilterPropsWithQuery]. *)
Definition entitySchema : ZodType :=
  ZodObject [("name", ZodString); ("age", ZodNumber)] strip.

Definition zFilterQuery : ZodType := ZodObject [("location", ZodString)] strip.

(** ** Further notions used in the statements *)

(** A flattened type with each of its paths under one more prefix. *)
Definition prefix_keys (P : string) (m : Flattened) : Flattened :=
  map (fun e => (P +:+ fst e, snd e)) m.

(** The two wrappers that [UnwrapZodType] removes. *)
Definition is_wrapper (T : ZodType) : bool :=
  match T with
  | ZodOptional _ | ZodNullable _ => true
  | _ => false
  end.

(** The primitive values, [undefined] and [null]: the values that are
    neither arrays nor objects of any kind. *)
Definition is_primitive (v : Value) : bool :=
  match v with
  | VUndefined | VNull | VString _ | VNumber _ | VBoolean _ => true
  | VDate _ | VDateTime _ | VArray _ | VObject _ => false
  end.

(** [k] is one of the keys [K[number]] handed to [PickZodObjectKeys]. *)
Definition picked (K : list string) (k : string) : bool :=
  existsb (String.eqb k) K.

(** * Properties *)

(** ** The equations of the flattener *)

Lemma Depth_extends_1_Increment (D : Depth) : Depth_extends_1 (Increment D) = false.
Proof. reflexivity. Qed.

Lemma flatten_fields_nil (Path : string) (D : Depth) : flatten_fields [] Path D = [].
Proof. reflexivity. Qed.

Lemma flatten_fields_cons (K : string) (child : ZodType) (rest : Shape)
    (Path : string) (D : Depth) :
  flatten_fields ((K, child) :: rest) Path D
  = FlattenZodFieldWithTypes child (Path +:+ K) D ++ flatten_fields rest Path D.
Proof. reflexivity. Qed.

(** Under the depth guard every field is a leaf. *)
Lemma FlattenZodFieldWithTypes_guard (T : ZodType) (Path : string) (D : Depth) :
  Depth_extends_1 D = true ->
  FlattenZodFieldWithTypes T Path D = [(Path, QueryTypes T)].
Proof. intros HD. destruct T; simpl; rewrite HD; reflexivity. Qed.

Lemma FlattenZodFieldWithTypes_optional (Inner : ZodType) (Path : string) (D : Depth) :
  Depth_extends_1 D = false ->
  FlattenZodFieldWithTypes (ZodOptional Inner) Path D
  = FlattenZodFieldWithTypes Inner Path D.
Proof. intros HD. simpl. rewrite HD. reflexivity. Qed.

Lemma FlattenZodFieldWithTypes_nullable (Inner : ZodType) (Path : string) (D : Depth) :
  Depth_extends_1 D = false ->
  FlattenZodFieldWithTypes (ZodNullable Inner) Path D
  = FlattenZodFieldWithTypes Inner Path D.
Proof. intros HD. simpl. rewrite HD. reflexivity. Qed.

(** The object branch is the call
    [FlattenZodObjectWithTypes<T, `${Path}_`, Depth>]. *)
Lemma FlattenZodFieldWithTypes_object (shape : Shape) (config : Config)
    (Path : string) (D : Depth) :
  Depth_extends_1 D = false ->
  FlattenZodFieldWithTypes (ZodObject shape config) Path D
  = union_member (FlattenZodObjectWithTypes (ZodObject shape config) (Path +:+ "_") D).
Proof.
  intros HD. unfold FlattenZodObjectWithTypes. simpl. rewrite HD. simpl.
  induction shape as [|[K child] rest IH]; [reflexivity|].
  rewrite flatten_fields_cons, <- IH. reflexivity.
Qed.

(** The union branch, when every option is an object, is
    [UnionToIntersection<FlattenUnionObjects<Options[number], `${Path}_`,
    Increment<Depth>>>], the conditional type [FlattenUnionObjects]
    distributing over the options. *)
Lemma FlattenZodFieldWithTypes_union (Options : list ZodType)
    (Path : string) (D : Depth) :
  Depth_extends_1 D = false ->
  FlattenZodFieldWithTypes (ZodUnion Options) Path D
  = if forallb is_ZodObject Options
    then flat_map
           (fun member =>
              union_member (FlattenUnionObjects member (Path +:+ "_") (Increment D)))
           Options
    else [(Path, QueryTypes (ZodUnion Options))].
Proof.
  intros HD. simpl. rewrite HD.
  destruct (forallb is_ZodObject Options); [|reflexivity].
  induction Options as [|member others IH]; [reflexivity|].
  simpl flat_map. rewrite <- IH. f_equal.
  destruct member; try reflexivity.
  unfold FlattenUnionObjects, FlattenZodObjectWithTypes. simpl.
  induction shape as [|[K child] rest IHs]; [reflexivity|].
  rewrite flatten_fields_cons, <- IHs. reflexivity.
Qed.

Lemma FlattenZodFieldWithTypes_leaf (T : ZodType) (Path : string) (D : Depth) :
  is_leaf_kind T = true ->
  FlattenZodFieldWithTypes T Path D = [(Path, QueryTypes T)].
Proof.
  intros HT. destruct T; try discriminate HT; simpl;
    destruct (Depth_extends_1 D); reflexivity.
Qed.

(** At its default depth the flattener of an object never meets the guard. *)
Lemma MergeFlattened_object (shape : Shape) (config : Config) :
  MergeFlattened (ZodObject shape config) = Some (flatten_fields shape "" DepthNumber).
Proof. reflexivity. Qed.

(** ** The flattener on the example of its documentation *)

(** C1: for the schema [{a: string, b: {c: number}}] the flattener yields a
    map with exactly the two keys [a] and [b_c]; [a] maps to the string query
    type and [b_c] to the number query type.  [NestedZodKeysWithTypes] is the
    object schema of that shape. *)
Theorem flatten_a_b_c :
  MergeFlattened schema_a_b_c
  = Some [ ("a", ZodUnion [ZodString; ZodArray ZodString; LHSStringSchema]);
           ("b_c", ZodUnion [ZodNumber; ZodArray ZodNumber; LHSNumberSchema]) ]
  /\ NestedZodKeysWithTypes schema_a_b_c
     = Some (ZodObject
               [ ("a", QueryTypes ZodString); ("b_c", QueryTypes ZodNumber) ] strip).
Proof. split; reflexivity. Qed.

(** ** Query types and filter schemas *)

Lemma accepts_union (options : list ZodType) (v : Value) :
  accepts (ZodUnion options) v = existsb (fun option => accepts option v) options.
Proof.
  simpl. induction options as [|option others IH]; [reflexivity|].
  simpl. rewrite IH. reflexivity.
Qed.

Lemma accepts_object (shape : Shape) (config : Config) (props : list (string * Value)) :
  accepts (ZodObject shape config) (VObject props)
  = forallb (fun f => accepts (snd f) (prop props (fst f))) shape
    && match config with
       | strict => forallb (has_key shape) (keys props)
       | strip | loose => true
       end.
Proof.
  assert (Hfields :
            (fix fields (s : Shape) : bool :=
               match s with
               | [] => true
               | (K, child) :: rest => accepts child (prop props K) && fields rest
               end) shape
            = forallb (fun f => accepts (snd f) (prop props (fst f))) shape).
  { induction shape as [|[K child] rest IH]; [reflexivity|].
    simpl. rewrite IH. reflexivity. }
  simpl. rewrite Hfields. destruct config; reflexivity.
Qed.

(** C2: on a Boolean leaf the type-level [QueryTypes] is the Boolean schema
    itself, while the runtime [getFilterSchema] has no Boolean case and
    returns the union of the schema with its array. *)
Theorem boolean_query_type_and_filter_schema :
  QueryTypes ZodBoolean = ZodBoolean
  /\ getFilterSchema ZodBoolean = ZodUnion [ZodBoolean; ZodArray ZodBoolean]
  /\ getFilterSchema ZodBoolean <> ZodBoolean
  /\ accepts (getFilterSchema ZodBoolean) (VArray [VBoolean true]) = true.
Proof. repeat split; try reflexivity. discriminate. Qed.

(** C9: [getFilterSchema t] is a union whose first member is [t] itself, so
    every value accepted by [t] is accepted by the filter schema. *)
Theorem getFilterSchema_first_member (t : ZodType) :
  (exists others, getFilterSchema t = ZodUnion (t :: others))
  /\ (forall v, accepts t v = true -> accepts (getFilterSchema t) v = true).
Proof.
  assert (Hfirst : exists others, getFilterSchema t = ZodUnion (t :: others)).
  { destruct t; simpl; eauto. }
  split; [exact Hfirst|].
  intros v Hv. destruct Hfirst as [others ->].
  rewrite accepts_union. simpl. rewrite Hv. reflexivity.
Qed.

Lemma getFilterSchema_first_member_witness :
  accepts (getFilterSchema ZodString) (VString "ada") = true.
Proof.
  apply (proj2 (getFilterSchema_first_member ZodString)). reflexivity.
Defined.

(** ** Relational-operator objects *)

Lemma shape_get_app_other {A : Type} (props : list (string * A)) (k K : string) (v : A) :
  String.eqb k K = false ->
  shape_get (props ++ [(k, v)]) K = shape_get props K.
Proof.
  intros Hk. induction props as [|[k' v'] rest IH]; simpl.
  - rewrite Hk. reflexivity.
  - destruct (String.eqb k' K); [reflexivity|exact IH].
Qed.

Lemma has_key_false_eqb {A : Type} (s : list (string * A)) (k : string) :
  has_key s k = false ->
  Forall (fun f => String.eqb k (fst f) = false) s.
Proof.
  unfold has_key, keys. induction s as [|[K t] rest IH]; simpl; intros H.
  - constructor.
  - apply orb_false_iff in H as [H1 H2]. constructor; [exact H1|exact (IH H2)].
Qed.

(** A key outside a shape does not change what the shape's fields see. *)
Lemma fields_ignore_other_key (shape : Shape) (props : list (string * Value))
    (k : string) (v : Value) :
  has_key shape k = false ->
  forallb (fun f => accepts (snd f) (prop (props ++ [(k, v)]) (fst f))) shape
  = forallb (fun f => accepts (snd f) (prop props (fst f))) shape.
Proof.
  intros Hk. apply has_key_false_eqb in Hk.
  induction Hk as [|[K t] rest HK _ IH]; [reflexivity|].
  simpl in *. unfold prop at 1 3.
  rewrite (shape_get_app_other props k K v HK). rewrite IH. reflexivity.
Qed.

(** The claim C3 as stated fails: the filter schema of a string accepts an
    object with the key [foo], which is no string operator. *)
Lemma string_filter_accepts_unknown_key :
  has_key (operators ZodString) "foo" = false
  /\ accepts (getFilterSchema ZodString) (VObject [("foo", VNumber 1)]) = true.
Proof. split; reflexivity. Qed.

(** C3 (amended): for a String, Number or Date leaf, the filter schema
    accepts the bare value and an array of values; it accepts an object
    exactly when each operator of the kind's set is absent or holds a value of
    its type, every operator being optional; a key outside the set is
    ignored, not rejected.  The operator sets are [in], [notIn], [contains],
    [startsWith], [endsWith] for strings and [in], [notIn], [gt], [gte], [lt],
    [lte] for numbers and dates. *)
Theorem filter_schema_of_relational_leaf (T : ZodType) :
  relational_leaf T ->
  (forall v, accepts T v = true -> accepts (getFilterSchema T) v = true)
  /\ (forall items,
        forallb (accepts T) items = true ->
        accepts (getFilterSchema T) (VArray items) = true)
  /\ (forall props,
        accepts (getFilterSchema T) (VObject props)
        = forallb (fun f => accepts (snd f) (prop props (fst f))) (operators T))
  /\ accepts (getFilterSchema T) (VObject []) = true
  /\ (forall props k v,
        has_key (operators T) k = false ->
        accepts (getFilterSchema T) (VObject (props ++ [(k, v)]))
        = accepts (getFilterSchema T) (VObject props))
  /\ (forall f, In f (operators T) ->
        snd f = ZodOptional T \/ snd f = ZodOptional (ZodArray T))
  /\ keys (operators T)
     = match T with
       | ZodString => ["in"; "notIn"; "contains"; "startsWith"; "endsWith"]
       | _ => ["in"; "notIn"; "gt"; "gte"; "lt"; "lte"]
       end.
Proof.
  intros HT.
  assert (Hobj : forall props,
             accepts (getFilterSchema T) (VObject props)
             = forallb (fun f => accepts (snd f) (prop props (fst f))) (operators T)).
  { intros props.
    destruct HT as [-> | [-> | ->]];
      unfold getFilterSchema, LHSStringSchema, LHSNumberSchema, LHSDateSchema;
      rewrite accepts_union; cbn [existsb];
      rewrite accepts_object, andb_true_r, orb_false_r;
      reflexivity. }
  split; [|split; [|split; [|split; [|split; [|split]]]]].
  - intros v Hv. apply getFilterSchema_first_member. exact Hv.
  - intros items Hitems.
    destruct HT as [-> | [-> | ->]];
      unfold getFilterSchema; rewrite accepts_union;
      cbn [existsb]; cbn [accepts]; cbn [accepts] in Hitems;
      rewrite Hitems; reflexivity.
  - exact Hobj.
  - rewrite Hobj. destruct HT as [-> | [-> | ->]]; reflexivity.
  - intros props k v Hk. rewrite !Hobj. apply fields_ignore_other_key. exact Hk.
  - intros f Hf.
    destruct HT as [-> | [-> | ->]]; simpl in Hf;
      repeat (destruct Hf as [<- | Hf]; [simpl; auto|]); destruct Hf.
  - destruct HT as [-> | [-> | ->]]; reflexivity.
Qed.

Lemma filter_schema_of_relational_leaf_witness :
  accepts (getFilterSchema ZodNumber)
    (VObject ([("gt", VNumber 10); ("lt", VNumber 5)] ++ [("limit", VNumber 3)]))
  = accepts (getFilterSchema ZodNumber) (VObject [("gt", VNumber 10); ("lt", VNumber 5)]).
Proof.
  apply (filter_schema_of_relational_leaf ZodNumber); [|reflexivity].
  right; left; reflexivity.
Defined.

(** ** Schemas without nested objects *)

(** A field the flattener does not descend into is a single entry: its path
    with the query type of the unwrapped field. *)
Lemma FlattenZodFieldWithTypes_flat (T : ZodType) (Path : string) (D : Depth) :
  Depth_extends_1 D = false ->
  flattens_into T = false ->
  FlattenZodFieldWithTypes T Path D = [(Path, QueryTypes (UnwrapZodType T))].
Proof.
  intros HD. unfold flattens_into.
  induction T using ZodType_ind_nested; intros HT;
    try (apply FlattenZodFieldWithTypes_leaf; reflexivity).
  - rewrite FlattenZodFieldWithTypes_optional by exact HD. apply IHT, HT.
  - rewrite FlattenZodFieldWithTypes_nullable by exact HD. apply IHT, HT.
  - rewrite FlattenZodFieldWithTypes_union by exact HD.
    simpl in HT. rewrite HT. reflexivity.
  - discriminate HT.
Qed.

Lemma flatten_fields_flat (shape : Shape) (D : Depth) :
  Depth_extends_1 D = false ->
  Forall (fun f => flattens_into (snd f) = false) shape ->
  flatten_fields shape "" D = query_shape shape.
Proof.
  intros HD Hflat. induction Hflat as [|[K child] rest HK _ IH]; [reflexivity|].
  rewrite flatten_fields_cons, IH.
  rewrite (FlattenZodFieldWithTypes_flat child _ D HD HK). reflexivity.
Qed.

Lemma keys_query_shape (shape : Shape) : keys (query_shape shape) = keys shape.
Proof.
  unfold keys, query_shape. rewrite map_map. reflexivity.
Qed.

(** The claim C5 as stated fails: no top-level field of this schema is a
    nested object, yet the flattened keys are [u_x] and [u_y], not [u].  A
    union without options, which holds no object at all, loses its key. *)
Lemma union_of_objects_is_flattened :
  let shape :=
    [("u", ZodUnion [ZodObject [("x", ZodString)] strip;
                     ZodObject [("y", ZodNumber)] strip])] in
  Forall (fun f => nested_object (snd f) = false) shape
  /\ (exists m, MergeFlattened (ZodObject shape strip) = Some m
        /\ keys m = ["u_x"; "u_y"]
        /\ ~ In "u" (keys m))
  /\ MergeFlattened (ZodObject [("e", ZodUnion [])] strip) = Some [].
Proof.
  simpl. split; [|split].
  - repeat constructor.
  - eexists. split; [reflexivity|]. split; [reflexivity|].
    simpl. intros [H | [H | []]]; discriminate H.
  - reflexivity.
Qed.

(** C5 (amended): for every schema none of whose top-level fields is, after
    unwrapping Optional/Nullable, a nested object or a union made of objects
    only, the flattener returns a map whose keys are the top-level field
    names, none renamed or prefixed; each key holds the query type of its
    unwrapped field. *)
Theorem flatten_identity_keys (shape : Shape) (config : Config) :
  Forall (fun f => flattens_into (snd f) = false) shape ->
  MergeFlattened (ZodObject shape config) = Some (query_shape shape)
  /\ keys (query_shape shape) = keys shape.
Proof.
  intros Hflat. split.
  - rewrite MergeFlattened_object. f_equal.
    apply flatten_fields_flat; [reflexivity|exact Hflat].
  - apply keys_query_shape.
Qed.

Lemma flatten_identity_keys_witness :
  MergeFlattened
    (ZodObject [("foo", ZodString); ("zoo", ZodOptional ZodString);
                ("cas", ZodNullable ZodNumber);
                ("qux", ZodUnion [ZodString; ZodNumber])] strip)
  = Some (query_shape [("foo", ZodString); ("zoo", ZodOptional ZodString);
                       ("cas", ZodNullable ZodNumber);
                       ("qux", ZodUnion [ZodString; ZodNumber])])
  /\ keys (query_shape [("foo", ZodString); ("zoo", ZodOptional ZodString);
                        ("cas", ZodNullable ZodNumber);
                        ("qux", ZodUnion [ZodString; ZodNumber])])
     = ["foo"; "zoo"; "cas"; "qux"].
Proof.
  apply (flatten_identity_keys
           [("foo", ZodString); ("zoo", ZodOptional ZodString);
            ("cas", ZodNullable ZodNumber);
            ("qux", ZodUnion [ZodString; ZodNumber])] strip).
  repeat constructor.
Defined.

(** ** Flattening twice *)

Lemma QueryTypes_cases (T : ZodType) :
  QueryTypes T = ZodBoolean /\ T = ZodBoolean
  \/ exists first second others, QueryTypes T = ZodUnion (first :: ZodArray second :: others).
Proof.
  unfold QueryTypes. destruct (infer_extends_DateTime T); [right; eauto|].
  destruct T; try (right; eauto; fail). left; split; reflexivity.
Qed.

(** A query type is never descended into, and has no wrapper to remove. *)
Lemma flattens_into_QueryTypes (T : ZodType) : flattens_into (QueryTypes T) = false.
Proof.
  destruct (QueryTypes_cases T) as [[-> _] | (first & second & others & ->)].
  - reflexivity.
  - unfold flattens_into. simpl. apply andb_false_r.
Qed.

Lemma UnwrapZodType_QueryTypes (T : ZodType) :
  UnwrapZodType (QueryTypes T) = QueryTypes T.
Proof.
  destruct (QueryTypes_cases T) as [[-> _] | (first & second & others & ->)];
    reflexivity.
Qed.

Lemma query_shape_twice (shape : Shape) :
  query_shape (query_shape shape)
  = map (fun e => (fst e, QueryTypes (snd e))) (query_shape shape).
Proof.
  unfold query_shape. rewrite !map_map. apply map_ext. intros [K t]. simpl.
  rewrite UnwrapZodType_QueryTypes. reflexivity.
Qed.

Lemma query_shape_flat (shape : Shape) :
  Forall (fun f => flattens_into (snd f) = false) (query_shape shape).
Proof.
  unfold query_shape. apply List.Forall_forall. intros f Hf.
  apply in_map_iff in Hf as ([K t] & <- & _). simpl.
  apply flattens_into_QueryTypes.
Qed.

Lemma size_union_member (T : ZodType) (others : list ZodType) :
  size T < size (ZodUnion (T :: others)).
Proof. simpl. lia. Qed.

(** The Boolean schema is the only one that is its own query type. *)
Lemma QueryTypes_fixed_iff (T : ZodType) : QueryTypes T = T <-> T = ZodBoolean.
Proof.
  split; [|intros ->; reflexivity].
  unfold QueryTypes. destruct (infer_extends_DateTime T) eqn:HDT.
  - intros <-. discriminate HDT.
  - destruct T; try discriminate; [reflexivity|].
    intros H. destruct options as [|first others]; [discriminate H|].
    injection H as Hfirst _.
    pose proof (size_union_member first others) as Hlt.
    rewrite <- Hfirst in Hlt at 1. lia.
Qed.

Lemma query_shape_twice_eq_iff (shape : Shape) :
  query_shape (query_shape shape) = query_shape shape
  <-> Forall (fun f => UnwrapZodType (snd f) = ZodBoolean) shape.
Proof.
  induction shape as [|[K t] rest IH].
  - split; [constructor|reflexivity].
  - split.
    + intros H. injection H as Hhead Hrest.
      rewrite UnwrapZodType_QueryTypes in Hhead.
      apply QueryTypes_fixed_iff in Hhead.
      constructor; [|apply IH; exact Hrest].
      simpl. destruct (QueryTypes_cases (UnwrapZodType t))
        as [[_ Hb] | (first & second & others & Hu)]; [exact Hb|].
      rewrite Hu in Hhead. discriminate Hhead.
    + intros H. inversion H as [|f l Hhead Hrest]; subst. simpl in Hhead.
      change (query_shape (query_shape ((K, t) :: rest)))
        with ((K, QueryTypes (UnwrapZodType (QueryTypes (UnwrapZodType t))))
                :: query_shape (query_shape rest)).
      change (query_shape ((K, t) :: rest))
        with ((K, QueryTypes (UnwrapZodType t)) :: query_shape rest).
      rewrite (proj2 IH Hrest), Hhead. reflexivity.
Qed.

(** The claim C8 as stated fails: [{a: string}] has no nested object, and
    flattening its flattened schema wraps the query type of [a] once more. *)
Lemma flatten_twice_differs :
  let T := ZodObject [("a", ZodString)] strip in
  Forall (fun f => nested_object (snd f) = false) (shape_of T)
  /\ exists once,
       NestedZodKeysWithTypes T = Some once
       /\ MergeFlattened T = Some [("a", QueryTypes ZodString)]
       /\ MergeFlattened once
          = Some [("a", ZodUnion [QueryTypes ZodString; ZodArray (QueryTypes ZodString)])]
       /\ MergeFlattened once <> MergeFlattened T.
Proof.
  simpl. split; [repeat constructor|].
  eexists. split; [reflexivity|]. repeat split. discriminate.
Qed.

(** C8 (amended): for every schema none of whose top-level fields is a
    nested object or a union made of objects only, flattening the flattened
    schema yields a map with the same keys as flattening once, in which each
    value is the query type of the value flattened once; the two maps are the
    same exactly when every field is, once unwrapped, a Boolean. *)
Theorem flatten_twice (shape : Shape) (config : Config) :
  Forall (fun f => flattens_into (snd f) = false) shape ->
  exists once twice,
    MergeFlattened (ZodObject shape config) = Some once
    /\ NestedZodKeysWithTypes (ZodObject shape config) = Some (ZodObject once config)
    /\ MergeFlattened (ZodObject once config) = Some twice
    /\ twice = map (fun e => (fst e, QueryTypes (snd e))) once
    /\ keys twice = keys once
    /\ (twice = once <-> Forall (fun f => UnwrapZodType (snd f) = ZodBoolean) shape).
Proof.
  intros Hflat.
  destruct (flatten_identity_keys shape config Hflat) as [Honce _].
  destruct (flatten_identity_keys (query_shape shape) config (query_shape_flat shape))
    as [Htwice _].
  exists (query_shape shape), (query_shape (query_shape shape)).
  split; [exact Honce|]. split.
  { unfold NestedZodKeysWithTypes. rewrite Honce. reflexivity. }
  split; [exact Htwice|]. split; [apply query_shape_twice|].
  split; [apply keys_query_shape|]. apply query_shape_twice_eq_iff.
Qed.

Lemma flatten_twice_witness :
  exists once twice,
    MergeFlattened (ZodObject [("active", ZodBoolean); ("name", ZodString)] strip)
    = Some once
    /\ NestedZodKeysWithTypes (ZodObject [("active", ZodBoolean); ("name", ZodString)] strip)
       = Some (ZodObject once strip)
    /\ MergeFlattened (ZodObject once strip) = Some twice
    /\ twice = map (fun e => (fst e, QueryTypes (snd e))) once
    /\ keys twice = keys once
    /\ (twice = once
        <-> Forall (fun f => UnwrapZodType (snd f) = ZodBoolean)
              [("active", ZodBoolean); ("name", ZodString)]).
Proof.
  apply (flatten_twice [("active", ZodBoolean); ("name", ZodString)] strip).
  repeat constructor.
Defined.

(** ** Populate fields *)

Section Populate_facts.
Variable rel : Shape -> Shape -> bool.

Lemma removeSubtypes_from_incl (pending kept : list Shape) (S0 : Shape) :
  In S0 (removeSubtypes_from rel pending kept) -> In S0 pending \/ In S0 kept.
Proof.
  revert kept. induction pending as [|source before IH]; intros kept H; simpl in *.
  - right; exact H.
  - destruct (existsb (rel source) (before ++ kept)).
    + destruct (IH _ H) as [H1 | H1]; auto.
    + destruct (IH _ H) as [H1 | [H1 | H1]]; auto.
Qed.

(** The reduction removes a member only in the presence of another one:
    it never empties a union. *)
Lemma removeSubtypes_from_nonempty (pending kept : list Shape) :
  pending ++ kept <> [] -> removeSubtypes_from rel pending kept <> [].
Proof.
  revert kept. induction pending as [|source before IH]; intros kept H; simpl in *.
  - exact H.
  - destruct (existsb (rel source) (before ++ kept)) eqn:Hex.
    + apply IH. intros Hnil. rewrite Hnil in Hex. discriminate Hex.
    + apply IH. destruct before; discriminate.
Qed.

Lemma removeSubtypes_incl (types : list Shape) (S0 : Shape) :
  In S0 (removeSubtypes rel types) -> In S0 types.
Proof.
  intros H. apply removeSubtypes_from_incl in H as [H | []].
  apply in_rev. exact H.
Qed.

Lemma removeSubtypes_nonempty (types : list Shape) :
  types <> [] -> removeSubtypes rel types <> [].
Proof.
  intros H. apply removeSubtypes_from_nonempty. rewrite app_nil_r.
  intros Hrev. apply H. rewrite <- (rev_involutive types), Hrev. reflexivity.
Qed.

Lemma QueryPopulateFieldFilter_at_cases (K : string) (field : ZodType) :
  QueryPopulateFieldFilter_at rel K field = Some K
  \/ QueryPopulateFieldFilter_at rel K field = None.
Proof.
  unfold QueryPopulateFieldFilter_at.
  destruct (UnwrapZodType field); auto.
  - destruct (infer_SUnion rel options); auto.
    destruct (existsb extends_id l); auto.
  - destruct (extends_id shape); auto.
Qed.

Lemma QueryPopulateFields_In (T : ZodType) (K : string) :
  In K (QueryPopulateFields rel T)
  <-> exists field,
        In (K, field) (shape_of T)
        /\ QueryPopulateFieldFilter_at rel K field = Some K.
Proof.
  unfold QueryPopulateFields, NonNeverKeys, QueryPopulateFieldFilter.
  rewrite in_flat_map. split.
  - intros ([K' r] & Hin & HK). apply in_map_iff in Hin as ([K0 field] & Heq & Hin).
    simpl in Heq. injection Heq as -> <-. simpl in HK.
    destruct (QueryPopulateFieldFilter_at_cases K' field) as [Hs | Hn].
    + rewrite Hs in HK. destruct HK as [<- | []]. exists field. split; assumption.
    + rewrite Hn in HK. destruct HK.
  - intros (field & Hin & Hs). exists (K, Some K). split.
    + apply in_map_iff. exists (K, field). simpl. rewrite Hs. split; [reflexivity|exact Hin].
    + simpl. left; reflexivity.
Qed.

Lemma union_of_objects_with_id (K : string) (field : ZodType) (U : list ZodType) :
  UnwrapZodType field = ZodUnion U ->
  U <> [] ->
  forallb object_with_id U = true ->
  QueryPopulateFieldFilter_at rel K field = Some K.
Proof.
  intros HU Hne Hall. unfold QueryPopulateFieldFilter_at, infer_SUnion. rewrite HU.
  rewrite forallb_forall in Hall.
  assert (Hobj : forallb is_ZodObject U = true).
  { apply forallb_forall. intros m Hm. specialize (Hall m Hm).
    destruct m; try discriminate Hall. reflexivity. }
  rewrite Hobj.
  assert (Hsome : existsb extends_id (removeSubtypes rel (map shape_of U)) = true).
  { destruct (removeSubtypes rel (map shape_of U)) as [|S0 l] eqn:Hred.
    - exfalso. apply (removeSubtypes_nonempty (map shape_of U)); [|exact Hred].
      destruct U; [contradiction|discriminate].
    - assert (Hin : In S0 (map shape_of U)).
      { apply removeSubtypes_incl. rewrite Hred. left; reflexivity. }
      apply in_map_iff in Hin as (m & <- & Hm). specialize (Hall m Hm).
      destruct m; try discriminate Hall.
      cbn [existsb shape_of]. unfold extends_id.
      cbn [object_with_id] in Hall. rewrite Hall. reflexivity. }
  rewrite Hsome. reflexivity.
Qed.

Lemma union_selected_has_id (K : string) (field : ZodType) (U : list ZodType) :
  UnwrapZodType field = ZodUnion U ->
  QueryPopulateFieldFilter_at rel K field = Some K ->
  forallb is_ZodObject U = true /\ existsb object_with_id U = true.
Proof.
  intros HU. unfold QueryPopulateFieldFilter_at, infer_SUnion. rewrite HU.
  destruct (forallb is_ZodObject U) eqn:Hobj; [|discriminate].
  destruct (existsb extends_id (removeSubtypes rel (map shape_of U))) eqn:Hex;
    [|discriminate].
  intros _. split; [reflexivity|].
  apply existsb_exists in Hex as (S0 & Hin & Hid).
  apply removeSubtypes_incl in Hin. apply in_map_iff in Hin as (m & <- & Hm).
  apply existsb_exists. exists m. split; [exact Hm|].
  rewrite forallb_forall in Hobj. specialize (Hobj m Hm).
  destruct m; try discriminate Hobj. exact Hid.
Qed.
End Populate_facts.

(** The claim C4 as stated fails: the field [owner] is a union of two
    objects of which only the first contains [id]; the rule of the claim
    excludes it, the source selects it.  A union without members satisfies the
    rule of the claim vacuously, and the source excludes it. *)
Lemma mixed_union_is_selected :
  let field :=
    ZodUnion [ZodObject [("id", ZodString)] strip;
              ZodObject [("name", ZodString)] strip] in
  spec_populate field = false
  /\ QueryPopulateFields keys_strict_subtype (ZodObject [("owner", field)] strip)
     = ["owner"]
  /\ spec_populate (ZodUnion []) = true
  /\ QueryPopulateFields keys_strict_subtype (ZodObject [("none", ZodUnion [])] strip)
     = [].
Proof. repeat split; reflexivity. Qed.

(** C4 (amended): [QueryPopulateFields] includes a top-level field name
    exactly when the filter keeps it.  For a field that unwraps to an object,
    that is when the object's shape contains [id].  For a field that unwraps
    to a union, a non-empty union whose every member is an object containing
    [id] is kept, and a union that is kept has only object members, one of
    which at least contains [id].  Every other field is excluded, without
    error.  For [{author: {id, name}, title}] the result is [author] alone,
    for [{title}] it is empty. *)
Theorem populate_fields_selection (rel : Shape -> Shape -> bool) (T : ZodType) (K : string) :
  (In K (QueryPopulateFields rel T)
   <-> exists field,
         In (K, field) (shape_of T)
         /\ QueryPopulateFieldFilter_at rel K field = Some K)
  /\ (forall field shape config,
        UnwrapZodType field = ZodObject shape config ->
        (QueryPopulateFieldFilter_at rel K field = Some K <-> has_key shape "id" = true))
  /\ (forall field U,
        UnwrapZodType field = ZodUnion U ->
        (U <> [] /\ forallb object_with_id U = true ->
         QueryPopulateFieldFilter_at rel K field = Some K)
        /\ (QueryPopulateFieldFilter_at rel K field = Some K ->
            forallb is_ZodObject U = true /\ existsb object_with_id U = true))
  /\ (forall field,
        is_ZodObject (UnwrapZodType field) = false ->
        (forall U, UnwrapZodType field <> ZodUnion U) ->
        QueryPopulateFieldFilter_at rel K field = None)
  /\ QueryPopulateFields rel schema_author_title = ["author"]
  /\ QueryPopulateFields rel schema_title = [].
Proof.
  split; [apply QueryPopulateFields_In|].
  split.
  { intros field shape config Hobj. unfold QueryPopulateFieldFilter_at, extends_id.
    rewrite Hobj. destruct (has_key shape "id"); split; intros H;
      try reflexivity; discriminate H. }
  split.
  { intros field U HU. split.
    - intros [Hne Hall]. exact (union_of_objects_with_id rel K field U HU Hne Hall).
    - apply union_selected_has_id. exact HU. }
  split.
  { intros field Hobj Hunion. unfold QueryPopulateFieldFilter_at.
    destruct (UnwrapZodType field); try reflexivity.
    - exfalso. exact (Hunion _ eq_refl).
    - discriminate Hobj. }
  split; reflexivity.
Qed.

Lemma populate_fields_selection_witness :
  QueryPopulateFieldFilter_at keys_strict_subtype "owner"
    (ZodOptional
       (ZodUnion [ZodObject [("id", ZodString)] strip;
                  ZodObject [("id", ZodString); ("name", ZodString)] strip]))
  = Some "owner".
Proof.
  apply (proj1 (proj2 (proj2
           (populate_fields_selection keys_strict_subtype schema_title "owner")))
           (ZodOptional
              (ZodUnion [ZodObject [("id", ZodString)] strip;
                         ZodObject [("id", ZodString); ("name", ZodString)] strip]))
           [ZodObject [("id", ZodString)] strip;
            ZodObject [("id", ZodString); ("name", ZodString)] strip]
           eq_refl).
  split; [discriminate|reflexivity].
Defined.

(** ** Merging object schemas *)

Lemma has_key_app {A : Type} (a b : list (string * A)) (k : string) :
  has_key (a ++ b) k = has_key a k || has_key b k.
Proof. unfold has_key, keys. rewrite map_app, existsb_app. reflexivity. Qed.

Lemma has_key_cons {A : Type} (K : string) (t : A) (r : list (string * A)) (k : string) :
  has_key ((K, t) :: r) k = String.eqb k K || has_key r k.
Proof. reflexivity. Qed.

Lemma shape_get_app {A : Type} (a b : list (string * A)) (k : string) :
  shape_get (a ++ b) k
  = match shape_get a k with
    | Some t => Some t
    | None => shape_get b k
    end.
Proof.
  induction a as [|[K t] r IH]; simpl; [reflexivity|].
  destruct (String.eqb K k); [reflexivity|exact IH].
Qed.

Lemma shape_get_None_iff {A : Type} (s : list (string * A)) (k : string) :
  shape_get s k = None <-> has_key s k = false.
Proof.
  induction s as [|[K t] r IH]; [split; reflexivity|].
  rewrite has_key_cons. simpl. rewrite (String.eqb_sym k K).
  destruct (String.eqb K k); simpl; [split; discriminate|exact IH].
Qed.

Section Extend_facts.
Variables A B : Shape.

Lemma has_key_kept (k : string) :
  has_key (Extend_kept A B) k = has_key A k && negb (has_key B k).
Proof.
  unfold Extend_kept. induction A as [|[K t] r IH]; [reflexivity|].
  simpl. destruct (has_key B K) eqn:HK; simpl.
  - rewrite IH, has_key_cons. destruct (String.eqb k K) eqn:Hk; [|reflexivity].
    apply String.eqb_eq in Hk. subst k. rewrite HK. simpl.
    rewrite andb_false_r. reflexivity.
  - rewrite !has_key_cons, IH. destruct (String.eqb k K) eqn:Hk; [|reflexivity].
    apply String.eqb_eq in Hk. subst k. rewrite HK. reflexivity.
Qed.

Lemma shape_get_kept (k : string) :
  shape_get (Extend_kept A B) k = if has_key B k then None else shape_get A k.
Proof.
  unfold Extend_kept. induction A as [|[K t] r IH].
  - simpl. destruct (has_key B k); reflexivity.
  - simpl. destruct (has_key B K) eqn:HK; simpl.
    + rewrite IH. destruct (String.eqb K k) eqn:Hk; [|reflexivity].
      apply String.eqb_eq in Hk. subst k. rewrite HK. reflexivity.
    + destruct (String.eqb K k) eqn:Hk; [|exact IH].
      apply String.eqb_eq in Hk. subst k. rewrite HK. reflexivity.
Qed.

Lemma has_key_Extend (k : string) :
  has_key (Extend A B) k = has_key A k || has_key B k.
Proof.
  unfold Extend. rewrite has_key_app, has_key_kept.
  destruct (has_key A k), (has_key B k); reflexivity.
Qed.

Lemma shape_get_Extend (k : string) :
  shape_get (Extend A B) k
  = match shape_get B k with
    | Some t => Some t
    | None => shape_get A k
    end.
Proof.
  unfold Extend. rewrite shape_get_app, shape_get_kept.
  destruct (has_key B k) eqn:HB.
  - destruct (shape_get B k) eqn:Hget; [reflexivity|].
    apply shape_get_None_iff in Hget. congruence.
  - apply shape_get_None_iff in HB. rewrite HB.
    destruct (shape_get A k); reflexivity.
Qed.
End Extend_facts.

(** C7: merging two object schemas gives an object schema whose keys are
    those of [A] and those of [B]; under each key lies [B]'s field when [B]
    has the key, and [A]'s field otherwise; the config is [B]'s.  Merging
    [pick(entitySchema, ["name"])] with [{location: string}] gives exactly
    the fields [name] and [location]. *)
Theorem CombineZodObjects_merge (sa sb : Shape) (ca cb : Config) :
  let merged := CombineZodObjects (ZodObject sa ca) (ZodObject sb cb) in
  is_ZodObject merged = true
  /\ (forall k, has_key (shape_of merged) k = has_key sa k || has_key sb k)
  /\ (forall k,
        shape_get (shape_of merged) k
        = match shape_get sb k with
          | Some field => Some field
          | None => shape_get sa k
          end)
  /\ config_of merged = cb
  /\ CombineZodObjects (PickZodObjectKeys entitySchema ["name"] false) zFilterQuery
     = ZodObject [("name", ZodString); ("location", ZodString)] strip.
Proof.
  simpl. split; [reflexivity|]. split; [apply has_key_Extend|].
  split; [apply shape_get_Extend|]. split; reflexivity.
Qed.

(** ** The metadata of the router *)

(** C10: the [metadata] record takes precedence over the [authentication]
    parameter: when it has a key [authentication], the router gets that
    value; otherwise it gets the parameter, which is [true] when omitted. *)
Theorem metadata_overrides_authentication (p : CrudRouter.Params) :
  let given := CrudRouter.with_default ∅ (CrudRouter.metadata p) in
  let result := CrudRouter.options_metadata (CrudRouter.createCrudRouter p) in
  (forall v, given !! "authentication" = Some v -> result !! "authentication" = Some v)
  /\ (given !! "authentication" = None ->
      result !! "authentication"
      = Some (VBoolean (CrudRouter.with_default true (CrudRouter.authentication p))))
  /\ (forall k, k <> "authentication" -> result !! k = given !! k).
Proof.
  unfold CrudRouter.createCrudRouter, CrudRouter.spread. simpl.
  split; [|split].
  - intros v Hv. apply lookup_union_Some_l. exact Hv.
  - intros Hnone. rewrite lookup_union_r by exact Hnone.
    apply lookup_singleton_eq.
  - intros k Hk.
    destruct (CrudRouter.with_default ∅ (CrudRouter.metadata p) !! k) as [v|] eqn:Hget.
    + apply lookup_union_Some_l. exact Hget.
    + rewrite lookup_union_r by exact Hget. apply lookup_singleton_ne. congruence.
Qed.

Lemma metadata_overrides_authentication_witness :
  CrudRouter.options_metadata
    (CrudRouter.createCrudRouter
       (CrudRouter.mkParams "user" None (Some true)
          (Some {[ "authentication" := VBoolean false ]})))
    !! "authentication"
  = Some (VBoolean false).
Proof.
  apply (proj1 (metadata_overrides_authentication
                  (CrudRouter.mkParams "user" None (Some true)
                     (Some {[ "authentication" := VBoolean false ]})))).
  apply lookup_singleton_eq.
Defined.


(** * Further properties of the code *)

(** ** Strings *)

Lemma string_app_assoc (a b c : string) : (a +:+ b) +:+ c = a +:+ (b +:+ c).
Proof.
  induction a as [|x a IH]; [reflexivity|].
  change (String x ((a +:+ b) +:+ c) = String x (a +:+ (b +:+ c))).
  rewrite IH. reflexivity.
Qed.

Lemma string_length_app (a b : string) :
  String.length (a +:+ b) = String.length a + String.length b.
Proof.
  induction a as [|x a IH]; [reflexivity|].
  change (S (String.length (a +:+ b)) = S (String.length a + String.length b)).
  rewrite IH. reflexivity.
Qed.

(** ** Wrappers *)

(** X1: [UnwrapZodType] removes every leading Optional and Nullable wrapper,
    in any nesting: its result is never a wrapper, unwrapping again changes
    nothing, and a schema that is not a wrapper is returned as it is. *)
Theorem UnwrapZodType_removes_wrappers (T : ZodType) :
  is_wrapper (UnwrapZodType T) = false
  /\ UnwrapZodType (UnwrapZodType T) = UnwrapZodType T
  /\ (is_wrapper T = false -> UnwrapZodType T = T).
Proof.
  induction T; simpl; try (repeat split; reflexivity); try exact IHT.
  - destruct IHT as (H1 & H2 & _). repeat split; [exact H1|exact H2|discriminate].
  - destruct IHT as (H1 & H2 & _). repeat split; [exact H1|exact H2|discriminate].
Qed.

Lemma UnwrapZodType_removes_wrappers_witness :
  UnwrapZodType (ZodArray (ZodOptional ZodString)) = ZodArray (ZodOptional ZodString).
Proof.
  apply (UnwrapZodType_removes_wrappers (ZodArray (ZodOptional ZodString))).
  reflexivity.
Defined.

(** ** The shape of the recursion *)

Lemma FlattenZodFieldWithTypes_object_fields (shape : Shape) (config : Config)
    (Path : string) (D : Depth) :
  Depth_extends_1 D = false ->
  FlattenZodFieldWithTypes (ZodObject shape config) Path D
  = flatten_fields shape (Path +:+ "_") DepthNumber.
Proof.
  intros HD. rewrite FlattenZodFieldWithTypes_object by exact HD.
  unfold FlattenZodObjectWithTypes. rewrite HD. reflexivity.
Qed.

Lemma FlattenZodFieldWithTypes_union_objects (Options : list ZodType)
    (Path : string) (D : Depth) :
  Depth_extends_1 D = false ->
  forallb is_ZodObject Options = true ->
  FlattenZodFieldWithTypes (ZodUnion Options) Path D
  = flat_map (fun member => FlattenZodFieldWithTypes member Path DepthNumber) Options.
Proof.
  intros HD Hall. rewrite FlattenZodFieldWithTypes_union by exact HD. rewrite Hall.
  induction Options as [|member others IH]; [reflexivity|].
  simpl in Hall. apply andb_true_iff in Hall as [Hm Ho].
  simpl. rewrite (IH Ho). f_equal.
  destruct member; try discriminate Hm.
  rewrite FlattenZodFieldWithTypes_object by reflexivity. reflexivity.
Qed.

Lemma prefix_keys_app (P : string) (m1 m2 : Flattened) :
  prefix_keys P (m1 ++ m2) = prefix_keys P m1 ++ prefix_keys P m2.
Proof. apply map_app. Qed.

(** X2: the flattener looks through Optional and Nullable: a wrapped field
    flattens to the same paths and values as the field it wraps. *)
Theorem flatten_ignores_wrappers (T : ZodType) (Path : string) (D : Depth) :
  Depth_extends_1 D = false ->
  FlattenZodFieldWithTypes T Path D
  = FlattenZodFieldWithTypes (UnwrapZodType T) Path D.
Proof.
  intros HD. induction T; try reflexivity.
  - rewrite FlattenZodFieldWithTypes_optional by exact HD. exact IHT.
  - rewrite FlattenZodFieldWithTypes_nullable by exact HD. exact IHT.
Qed.

Lemma flatten_ignores_wrappers_witness :
  FlattenZodFieldWithTypes (ZodOptional (ZodNullable ZodNumber)) "cas" DepthNumber
  = FlattenZodFieldWithTypes ZodNumber "cas" DepthNumber.
Proof.
  apply (flatten_ignores_wrappers (ZodOptional (ZodNullable ZodNumber)) "cas" DepthNumber).
  reflexivity.
Defined.

(** X3: the depth argument bounds nothing: below the guard value [1] the
    result of flattening a field is the same for every depth, so objects are
    flattened however deeply they are nested. *)
Theorem flatten_depth_irrelevant (T : ZodType) (Path : string) (D : Depth) :
  Depth_extends_1 D = false ->
  FlattenZodFieldWithTypes T Path D = FlattenZodFieldWithTypes T Path DepthNumber.
Proof.
  intros HD. revert Path. induction T; intros Path;
    try (rewrite !FlattenZodFieldWithTypes_leaf by reflexivity; reflexivity).
  - rewrite !FlattenZodFieldWithTypes_optional by (exact HD || reflexivity). apply IHT.
  - rewrite !FlattenZodFieldWithTypes_nullable by (exact HD || reflexivity). apply IHT.
  - rewrite !FlattenZodFieldWithTypes_union by (exact HD || reflexivity). reflexivity.
  - rewrite !FlattenZodFieldWithTypes_object_fields by (exact HD || reflexivity).
    reflexivity.
Qed.

Lemma flatten_depth_irrelevant_witness :
  FlattenZodFieldWithTypes
    (ZodObject [("b", ZodObject [("c", ZodObject [("d", ZodString)] strip)] strip)] strip)
    "a" (DepthLit 0)
  = FlattenZodFieldWithTypes
      (ZodObject [("b", ZodObject [("c", ZodObject [("d", ZodString)] strip)] strip)] strip)
      "a" DepthNumber.
Proof.
  apply (flatten_depth_irrelevant
           (ZodObject [("b", ZodObject [("c", ZodObject [("d", ZodString)] strip)] strip)]
              strip) "a" (DepthLit 0)).
  reflexivity.
Defined.

(** ** Paths *)

Lemma FlattenZodFieldWithTypes_prefix (T : ZodType) :
  forall (P Q : string) (D : Depth),
    FlattenZodFieldWithTypes T (P +:+ Q) D
    = prefix_keys P (FlattenZodFieldWithTypes T Q D).
Proof.
  induction T using ZodType_ind_nested; intros P Q D;
    (destruct (Depth_extends_1 D) eqn:HD;
     [rewrite !FlattenZodFieldWithTypes_guard by exact HD; reflexivity|]);
    try (rewrite !FlattenZodFieldWithTypes_leaf by reflexivity; reflexivity).
  - rewrite !FlattenZodFieldWithTypes_optional by exact HD. apply IHT.
  - rewrite !FlattenZodFieldWithTypes_nullable by exact HD. apply IHT.
  - destruct (forallb is_ZodObject opts) eqn:Hall.
    + rewrite !FlattenZodFieldWithTypes_union_objects by assumption.
      clear Hall. induction H as [|member others Hm _ IH]; [reflexivity|].
      simpl. rewrite prefix_keys_app, IH, Hm. reflexivity.
    + rewrite !FlattenZodFieldWithTypes_union by exact HD. rewrite Hall. reflexivity.
  - rewrite !FlattenZodFieldWithTypes_object_fields by exact HD.
    unfold flatten_fields.
    induction H as [|[K child] rest Hchild _ IH]; [reflexivity|].
    simpl in *. rewrite prefix_keys_app, IH. f_equal.
    rewrite !string_app_assoc. apply Hchild.
Qed.

Lemma string_app_empty_r (a : string) : a +:+ "" = a.
Proof.
  induction a as [|x a IH]; [reflexivity|].
  change (String x (a +:+ "") = String x a). rewrite IH. reflexivity.
Qed.

(** X4: paths are built by concatenation only: flattening a field under the
    path [P +:+ Q] gives what flattening it under [Q] gives, with [P] put in
    front of every key and the values unchanged; every key of a flattened
    field starts with the path the field was reached by. *)
Theorem flatten_path_prefix (T : ZodType) (P Q : string) (D : Depth) :
  FlattenZodFieldWithTypes T (P +:+ Q) D
  = prefix_keys P (FlattenZodFieldWithTypes T Q D)
  /\ Forall (fun e => exists suffix, fst e = P +:+ suffix)
       (FlattenZodFieldWithTypes T P D).
Proof.
  split; [apply FlattenZodFieldWithTypes_prefix|].
  assert (E : FlattenZodFieldWithTypes T P D
              = prefix_keys P (FlattenZodFieldWithTypes T "" D)).
  { rewrite <- FlattenZodFieldWithTypes_prefix, string_app_empty_r. reflexivity. }
  rewrite E. unfold prefix_keys.
  apply List.Forall_forall. intros e He.
  apply in_map_iff in He as (e0 & <- & _). exists (fst e0). reflexivity.
Qed.

Lemma FlattenZodFieldWithTypes_object_root (shape : Shape) (config : Config)
    (Path : string) (D : Depth) :
  Depth_extends_1 D = false ->
  FlattenZodFieldWithTypes (ZodObject shape config) Path D
  = prefix_keys (Path +:+ "_") (union_member (MergeFlattened (ZodObject shape config))).
Proof.
  intros HD. rewrite FlattenZodFieldWithTypes_object_fields by exact HD.
  rewrite MergeFlattened_object. unfold union_member, flatten_fields.
  induction shape as [|[K child] rest IH]; [reflexivity|].
  simpl. rewrite prefix_keys_app, IH. f_equal.
  apply (FlattenZodFieldWithTypes_prefix child (Path +:+ "_") K DepthNumber).
Qed.

(** X5: a nested object flattens as it would as a root, with the key of the
    field and an underscore put in front of every path. *)
Theorem flatten_nested_as_root (shape : Shape) (config : Config)
    (Path : string) (D : Depth) :
  Depth_extends_1 D = false ->
  FlattenZodFieldWithTypes (ZodObject shape config) Path D
  = prefix_keys (Path +:+ "_") (union_member (MergeFlattened (ZodObject shape config)))
  /\ keys (FlattenZodFieldWithTypes (ZodObject shape config) Path D)
     = map (fun k => (Path +:+ "_") +:+ k)
         (keys (union_member (MergeFlattened (ZodObject shape config)))).
Proof.
  intros HD. rewrite (FlattenZodFieldWithTypes_object_root shape config Path D HD).
  split; [reflexivity|]. unfold keys, prefix_keys. rewrite !map_map. reflexivity.
Qed.

Lemma flatten_nested_as_root_witness :
  FlattenZodFieldWithTypes (ZodObject [("baz", ZodNumber)] strip) "bar" DepthNumber
  = prefix_keys "bar_" [("baz", QueryTypes ZodNumber)].
Proof.
  apply (proj1 (flatten_nested_as_root [("baz", ZodNumber)] strip "bar" DepthNumber eq_refl)).
Defined.

(** X6: a union whose options are all objects flattens to the fields of all
    its options, each option flattened as a nested object under the key of
    the union; the options' fields are put side by side, not kept apart. *)
Theorem flatten_union_of_objects (Options : list ZodType) (Path : string) (D : Depth) :
  Depth_extends_1 D = false ->
  forallb is_ZodObject Options = true ->
  FlattenZodFieldWithTypes (ZodUnion Options) Path D
  = flat_map
      (fun member =>
         prefix_keys (Path +:+ "_") (union_member (MergeFlattened member)))
      Options.
Proof.
  intros HD Hall.
  rewrite FlattenZodFieldWithTypes_union_objects by assumption.
  induction Options as [|member others IH]; [reflexivity|].
  simpl in Hall. apply andb_true_iff in Hall as [Hm Ho].
  simpl. rewrite (IH Ho). f_equal.
  destruct member; try discriminate Hm.
  apply FlattenZodFieldWithTypes_object_root. reflexivity.
Qed.

Lemma flatten_union_of_objects_witness :
  FlattenZodFieldWithTypes
    (ZodUnion [ZodObject [("x", ZodString)] strip; ZodObject [("y", ZodBoolean)] strip])
    "u" DepthNumber
  = flat_map
      (fun member => prefix_keys ("u" +:+ "_") (union_member (MergeFlattened member)))
      [ZodObject [("x", ZodString)] strip; ZodObject [("y", ZodBoolean)] strip].
Proof.
  apply (flatten_union_of_objects
           [ZodObject [("x", ZodString)] strip; ZodObject [("y", ZodBoolean)] strip]
           "u" DepthNumber); reflexivity.
Defined.

(** ** What the flattened map holds *)

Lemma FlattenZodFieldWithTypes_values (T : ZodType) :
  forall (Path : string) (D : Depth),
    Forall (fun e => exists t, snd e = QueryTypes t)
      (FlattenZodFieldWithTypes T Path D).
Proof.
  induction T using ZodType_ind_nested; intros Path D;
    (destruct (Depth_extends_1 D) eqn:HD;
     [rewrite FlattenZodFieldWithTypes_guard by exact HD;
      constructor; [eexists; reflexivity|constructor]|]);
    try (rewrite FlattenZodFieldWithTypes_leaf by reflexivity;
         constructor; [eexists; reflexivity|constructor]).
  - rewrite FlattenZodFieldWithTypes_optional by exact HD. apply IHT.
  - rewrite FlattenZodFieldWithTypes_nullable by exact HD. apply IHT.
  - destruct (forallb is_ZodObject opts) eqn:Hall.
    + rewrite FlattenZodFieldWithTypes_union_objects by assumption.
      apply List.Forall_forall. intros e He.
      apply in_flat_map in He as (member & Hm & He).
      rewrite List.Forall_forall in H.
      exact (proj1 (List.Forall_forall _ _) (H member Hm Path DepthNumber) e He).
    + rewrite FlattenZodFieldWithTypes_union by exact HD. rewrite Hall.
      constructor; [eexists; reflexivity|constructor].
  - rewrite FlattenZodFieldWithTypes_object_fields by exact HD.
    unfold flatten_fields. apply List.Forall_forall. intros e He.
    apply in_flat_map in He as (f & Hf & He).
    rewrite List.Forall_forall in H.
    exact (proj1 (List.Forall_forall _ _) (H f Hf _ DepthNumber) e He).
Qed.

(** X7: for every object schema whose flattened paths are distinct, nested
    or not, each value of the flattened map is a query type, so the flattened
    schema has nothing left to descend into: flattening it again keeps every
    key as it is and wraps each value in one more query type. *)
Theorem flatten_again_keeps_keys (shape : Shape) (config : Config) (once : Flattened) :
  MergeFlattened (ZodObject shape config) = Some once ->
  NoDup (keys once) ->
  Forall (fun e => exists t, snd e = QueryTypes t) once
  /\ NestedZodKeysWithTypes (ZodObject shape config) = Some (ZodObject once config)
  /\ exists twice,
       MergeFlattened (ZodObject once config) = Some twice
       /\ keys twice = keys once
       /\ NoDup (keys twice)
       /\ twice = map (fun e => (fst e, QueryTypes (snd e))) once.
Proof.
  intros Honce Hdistinct.
  assert (Hdef : once = flatten_fields shape "" DepthNumber).
  { rewrite MergeFlattened_object in Honce. injection Honce as <-. reflexivity. }
  assert (Hvalues : Forall (fun e => exists t, snd e = QueryTypes t) once).
  { rewrite Hdef. unfold flatten_fields. apply List.Forall_forall. intros e He.
    apply in_flat_map in He as (f & _ & He).
    exact (proj1 (List.Forall_forall _ _)
             (FlattenZodFieldWithTypes_values (snd f) _ _) e He). }
  assert (Hflat : Forall (fun f => flattens_into (snd f) = false) once).
  { apply (List.Forall_impl _ (P := fun e => exists t, snd e = QueryTypes t));
      [|exact Hvalues].
    intros e [t ->]. apply flattens_into_QueryTypes. }
  assert (Hshape : query_shape once = map (fun e => (fst e, QueryTypes (snd e))) once).
  { unfold query_shape. apply map_ext_in. intros e He.
    destruct (proj1 (List.Forall_forall _ _) Hvalues e He) as [t ->].
    rewrite UnwrapZodType_QueryTypes. reflexivity. }
  split; [exact Hvalues|]. split.
  { unfold NestedZodKeysWithTypes. rewrite Honce. reflexivity. }
  exists (query_shape once). split.
  { rewrite MergeFlattened_object. f_equal.
    apply flatten_fields_flat; [reflexivity|exact Hflat]. }
  split; [apply keys_query_shape|]. split; [|exact Hshape].
  rewrite keys_query_shape. exact Hdistinct.
Qed.

Lemma flatten_again_keeps_keys_witness :
  exists twice,
    MergeFlattened
      (ZodObject [("a", QueryTypes ZodString); ("b_c", QueryTypes ZodNumber)] strip)
    = Some twice
    /\ keys twice = ["a"; "b_c"].
Proof.
  destruct (flatten_again_keeps_keys
              [("a", ZodString); ("b", ZodObject [("c", ZodNumber)] strip)] strip
              [("a", QueryTypes ZodString); ("b_c", QueryTypes ZodNumber)]
              eq_refl)
    as (_ & _ & twice & Htwice & Hkeys & _).
  - apply (bool_decide_unpack _). vm_compute. reflexivity.
  - exists twice. split; [exact Htwice|exact Hkeys].
Defined.

(** X8: two different fields can flatten to one key, and the flattener
    keeps both entries: a top-level field named [a_b] and the field [b] of a
    nested object [a] both end up under [a_b], although the schema has no
    duplicate key. *)
Theorem flatten_key_collision (a b : string) (t1 t2 : ZodType) :
  flattens_into t1 = false ->
  flattens_into t2 = false ->
  let shape := [((a +:+ "_") +:+ b, t1); (a, ZodObject [(b, t2)] strip)] in
  NoDup (keys shape)
  /\ MergeFlattened (ZodObject shape strip)
     = Some [ ((a +:+ "_") +:+ b, QueryTypes (UnwrapZodType t1));
              ((a +:+ "_") +:+ b, QueryTypes (UnwrapZodType t2)) ].
Proof.
  intros H1 H2 shape. split.
  - unfold shape, keys. simpl. apply NoDup_cons. split.
    + intros Hin. apply list_elem_of_In in Hin. destruct Hin as [Heq | []].
      apply (f_equal String.length) in Heq.
      rewrite !string_length_app in Heq. simpl in Heq. lia.
    + apply NoDup_singleton.
  - unfold shape. rewrite MergeFlattened_object.
    rewrite !flatten_fields_cons, flatten_fields_nil.
    rewrite (FlattenZodFieldWithTypes_flat t1 _ DepthNumber eq_refl H1).
    rewrite FlattenZodFieldWithTypes_object_fields by reflexivity.
    rewrite flatten_fields_cons, flatten_fields_nil.
    rewrite (FlattenZodFieldWithTypes_flat t2 _ DepthNumber eq_refl H2).
    reflexivity.
Qed.

Lemma flatten_key_collision_witness :
  MergeFlattened
    (ZodObject [(("a" +:+ "_") +:+ "b", ZodString);
                ("a", ZodObject [("b", ZodNumber)] strip)] strip)
  = Some [ (("a" +:+ "_") +:+ "b", QueryTypes (UnwrapZodType ZodString));
           (("a" +:+ "_") +:+ "b", QueryTypes (UnwrapZodType ZodNumber)) ].
Proof.
  apply (flatten_key_collision "a" "b" ZodString ZodNumber); reflexivity.
Defined.

(** ** The type-level query type against the runtime filter schema *)

(** X9: the type [QueryTypes<T>] and the value [getFilterSchema(T)] describe
    the same schema exactly when [T] is not the Boolean schema, not the Date
    schema, and does not infer a [DateTime]; for a schema that infers a
    [DateTime] the query type is the filter schema of a Date. *)
Theorem QueryTypes_vs_getFilterSchema (T : ZodType) :
  (QueryTypes T = getFilterSchema T
   <-> infer_extends_DateTime T = false /\ T <> ZodBoolean /\ T <> ZodDate)
  /\ (infer_extends_DateTime T = true -> QueryTypes T = getFilterSchema ZodDate).
Proof.
  split.
  - unfold QueryTypes. destruct (infer_extends_DateTime T) eqn:HDT.
    + split.
      * intros H. destruct T; simpl in H; try discriminate H. discriminate HDT.
      * intros (Hf & _). discriminate Hf.
    + split.
      * intros H. split; [reflexivity|].
        split; intros ->; discriminate H.
      * intros (_ & Hb & Hd). destruct T; try reflexivity; contradiction.
  - intros HDT. unfold QueryTypes. rewrite HDT. reflexivity.
Qed.

Lemma QueryTypes_vs_getFilterSchema_witness :
  QueryTypes ZodCustomDateTime = getFilterSchema ZodDate.
Proof.
  apply (proj2 (QueryTypes_vs_getFilterSchema ZodCustomDateTime)). reflexivity.
Defined.

Lemma getFilterSchema_members (t : ZodType) :
  exists others, getFilterSchema t = ZodUnion (t :: ZodArray t :: others).
Proof. destruct t; simpl; eauto. Qed.

(** X10: for every schema [t], the filter schema accepts every array whose
    items [t] accepts, the empty array included. *)
Theorem getFilterSchema_accepts_arrays (t : ZodType) (items : list Value) :
  forallb (accepts t) items = true ->
  accepts (getFilterSchema t) (VArray items) = true.
Proof.
  intros Hitems. destruct (getFilterSchema_members t) as [others ->].
  rewrite accepts_union. cbn [existsb].
  change (accepts (ZodArray t) (VArray items)) with (forallb (accepts t) items).
  rewrite Hitems. apply orb_true_r.
Qed.

Lemma getFilterSchema_accepts_arrays_witness :
  accepts (getFilterSchema (ZodEnum ["asc"; "desc"])) (VArray [VString "desc"]) = true.
Proof.
  apply (getFilterSchema_accepts_arrays (ZodEnum ["asc"; "desc"]) [VString "desc"]).
  reflexivity.
Defined.

(** X11: on a primitive value, [undefined] or [null] the filter schema
    decides as the schema itself: deriving a filter lets in no new string,
    number or boolean, and neither [undefined] nor [null]. *)
Theorem getFilterSchema_primitives (t : ZodType) (v : Value) :
  is_primitive v = true ->
  accepts (getFilterSchema t) v = accepts t v.
Proof.
  intros Hv.
  assert (Harray : accepts (ZodArray t) v = false).
  { destruct v; try reflexivity; discriminate Hv. }
  assert (Hobject : forall shape config, accepts (ZodObject shape config) v = false).
  { intros shape config. destruct v; try reflexivity; discriminate Hv. }
  destruct t; unfold getFilterSchema; rewrite accepts_union; cbn [existsb];
    rewrite Harray; unfold LHSStringSchema, LHSNumberSchema, LHSDateSchema;
    rewrite ?Hobject, ?orb_false_r; reflexivity.
Qed.

Lemma getFilterSchema_primitives_witness :
  accepts (getFilterSchema ZodString) (VNumber 7) = accepts ZodString (VNumber 7).
Proof. apply (getFilterSchema_primitives ZodString (VNumber 7)). reflexivity. Defined.

(** ** Picking keys, and merging what was picked *)

Lemma has_key_In {A : Type} (s : list (string * A)) (k : string) :
  has_key s k = true <-> In k (keys s).
Proof.
  unfold has_key. rewrite existsb_exists. split.
  - intros (k' & Hin & Heq). apply String.eqb_eq in Heq. subst k'. exact Hin.
  - intros Hin. exists k. split; [exact Hin|apply String.eqb_refl].
Qed.

Lemma shape_get_pick (T : ZodType) (K : list string) (Optional : bool) (k : string) :
  shape_get (shape_of (PickZodObjectKeys T K Optional)) k
  = if picked K k
    then option_map (fun field => if Optional then ZodOptional field else field)
           (shape_get (shape_of T) k)
    else None.
Proof.
  unfold PickZodObjectKeys, picked. cbn [shape_of].
  induction (shape_of T) as [|[K0 field] rest IH].
  - simpl. destruct (existsb (String.eqb k) K); reflexivity.
  - cbn [List.filter fst snd]. destruct (existsb (String.eqb K0) K) eqn:HK0.
    + cbn [map shape_get fst snd]. destruct (String.eqb K0 k) eqn:Hk; [|exact IH].
      apply String.eqb_eq in Hk. subst K0. rewrite HK0. reflexivity.
    + cbn [shape_get]. destruct (String.eqb K0 k) eqn:Hk; [|exact IH].
      apply String.eqb_eq in Hk. subst K0. rewrite IH, HK0. reflexivity.
Qed.

Lemma keys_pick (T : ZodType) (K : list string) (Optional : bool) :
  keys (shape_of (PickZodObjectKeys T K Optional))
  = List.filter (picked K) (keys (shape_of T)).
Proof.
  unfold PickZodObjectKeys, picked, keys. cbn [shape_of].
  induction (shape_of T) as [|[K0 field] rest IH]; [reflexivity|].
  simpl. destruct (existsb (String.eqb K0) K); simpl; [f_equal|]; exact IH.
Qed.

(** X12: [PickZodObjectKeys] keeps, in the order of the schema, the fields
    whose key was asked for and drops the others; a key asked for that the
    schema does not have is ignored; a kept field is the schema's own, wrapped
    in Optional when the flag is set; the config is the schema's. *)
Theorem PickZodObjectKeys_lookup (T : ZodType) (K : list string) (Optional : bool) :
  (forall k,
     shape_get (shape_of (PickZodObjectKeys T K Optional)) k
     = if picked K k
       then option_map (fun field => if Optional then ZodOptional field else field)
              (shape_get (shape_of T) k)
       else None)
  /\ keys (shape_of (PickZodObjectKeys T K Optional))
     = List.filter (picked K) (keys (shape_of T))
  /\ (forall k, has_key (shape_of T) k = false ->
        has_key (shape_of (PickZodObjectKeys T K Optional)) k = false)
  /\ config_of (PickZodObjectKeys T K Optional) = config_of T.
Proof.
  split; [intros k; apply shape_get_pick|].
  split; [apply keys_pick|].
  split; [|reflexivity].
  intros k Hk. apply shape_get_None_iff. rewrite shape_get_pick.
  apply shape_get_None_iff in Hk. rewrite Hk. destruct (picked K k); reflexivity.
Qed.

Lemma PickZodObjectKeys_lookup_witness :
  has_key (shape_of (PickZodObjectKeys entitySchema ["name"; "email"] true)) "email"
  = false.
Proof.
  apply (PickZodObjectKeys_lookup entitySchema ["name"; "email"] true). reflexivity.
Defined.

(** X13: merging the fields picked from an entity with a filter query gives,
    under each key, the query's field when the query has the key, else the
    entity's field when the key was picked, else nothing: the query wins over
    a picked field of the same name, and the config is the query's. *)
Theorem pick_then_combine (T Q : ZodType) (K : list string) (Optional : bool) (k : string) :
  shape_get (shape_of (CombineZodObjects (PickZodObjectKeys T K Optional) Q)) k
  = match shape_get (shape_of Q) k with
    | Some field => Some field
    | None =>
        if picked K k
        then option_map (fun field => if Optional then ZodOptional field else field)
               (shape_get (shape_of T) k)
        else None
    end
  /\ config_of (CombineZodObjects (PickZodObjectKeys T K Optional) Q) = config_of Q.
Proof.
  split; [|reflexivity].
  unfold CombineZodObjects. cbn [shape_of]. rewrite shape_get_Extend.
  destruct (shape_get (shape_of Q) k); [reflexivity|].
  apply (shape_get_pick T K Optional k).
Qed.

Lemma NoDup_List_filter {A : Type} (f : A -> bool) (l : list A) :
  NoDup l -> NoDup (List.filter f l).
Proof.
  induction l as [|x l IH]; intros Hl; [exact Hl|].
  apply NoDup_cons in Hl as [Hx Hl]. simpl. destruct (f x); [|exact (IH Hl)].
  apply NoDup_cons. split; [|exact (IH Hl)].
  intros Hin. apply Hx. apply list_elem_of_In in Hin.
  apply filter_In in Hin as [Hin _]. apply list_elem_of_In. exact Hin.
Qed.

Lemma keys_Extend_kept (A B : Shape) :
  keys (Extend_kept A B) = List.filter (fun k => negb (has_key B k)) (keys A).
Proof.
  unfold Extend_kept, keys.
  induction A as [|[K0 field] rest IH]; [reflexivity|].
  simpl. destruct (has_key B K0); simpl; [|f_equal]; exact IH.
Qed.

(** X14: picking and merging keep a schema well formed: when the operands
    have no duplicate key, neither has the result. *)
Theorem pick_and_combine_NoDup (A B : ZodType) (K : list string) (Optional : bool) :
  NoDup (keys (shape_of A)) ->
  NoDup (keys (shape_of B)) ->
  NoDup (keys (shape_of (PickZodObjectKeys A K Optional)))
  /\ NoDup (keys (shape_of (CombineZodObjects A B))).
Proof.
  intros HA HB. split.
  - rewrite keys_pick. apply NoDup_List_filter. exact HA.
  - unfold CombineZodObjects, Extend, keys. cbn [shape_of]. rewrite map_app.
    fold (keys (Extend_kept (shape_of A) (shape_of B))).
    rewrite keys_Extend_kept. apply NoDup_app. split; [|split].
    + apply NoDup_List_filter. exact HA.
    + intros k Hin Hin'. apply list_elem_of_In in Hin, Hin'.
      apply filter_In in Hin as [_ Hnot].
      apply (has_key_In (shape_of B)) in Hin'. rewrite Hin' in Hnot. discriminate Hnot.
    + exact HB.
Qed.

Lemma pick_and_combine_NoDup_witness :
  NoDup (keys (shape_of (PickZodObjectKeys entitySchema ["age"] false)))
  /\ NoDup (keys (shape_of (CombineZodObjects entitySchema zFilterQuery))).
Proof.
  apply (pick_and_combine_NoDup entitySchema zFilterQuery ["age"] false).
  - apply (bool_decide_unpack _). vm_compute. reflexivity.
  - apply (bool_decide_unpack _). vm_compute. reflexivity.
Defined.

(** ** The routes and the metadata of the router *)

(** X15: the routes handed to the contract always hold a route [get]: the
    caller's own [get] when [routes] has one, else the base route with method
    [GET], path [/name/:id] and summary [Get name by id]; every route of the
    caller is kept as given, and no other key is added. *)
Theorem createCrudRouter_routes (p : CrudRouter.Params) :
  let given := CrudRouter.with_default ∅ (CrudRouter.routes p) in
  let merged := CrudRouter.mergedRoutes (CrudRouter.createCrudRouter p) in
  (forall k r, given !! k = Some r -> merged !! k = Some r)
  /\ (given !! "get" = None ->
      merged !! "get"
      = Some (CrudRouter.mkAppRoute "GET"
                ("/" +:+ CrudRouter.name p +:+ "/:id")
                ("Get " +:+ CrudRouter.name p +:+ " by id")))
  /\ is_Some (merged !! "get")
  /\ (forall k, k <> "get" -> merged !! k = given !! k).
Proof.
  unfold CrudRouter.createCrudRouter, CrudRouter.spread, CrudRouter.baseRoutes. simpl.
  set (given := CrudRouter.with_default ∅ (CrudRouter.routes p)).
  split; [|split; [|split]].
  - intros k r Hk. apply lookup_union_Some_l. exact Hk.
  - intros Hnone. rewrite lookup_union_r by exact Hnone. apply lookup_singleton_eq.
  - destruct (given !! "get") as [r|] eqn:Hget.
    + exists r. apply lookup_union_Some_l. exact Hget.
    + eexists. rewrite lookup_union_r by exact Hget. apply lookup_singleton_eq.
  - intros k Hk. destruct (given !! k) as [r|] eqn:Hget.
    + apply lookup_union_Some_l. exact Hget.
    + rewrite lookup_union_r by exact Hget. apply lookup_singleton_ne. congruence.
Qed.

Lemma createCrudRouter_routes_witness :
  CrudRouter.mergedRoutes
    (CrudRouter.createCrudRouter (CrudRouter.mkParams "user" None None None))
    !! "get"
  = Some (CrudRouter.mkAppRoute "GET" ("/" +:+ "user" +:+ "/:id")
            ("Get " +:+ "user" +:+ " by id")).
Proof.
  apply (proj1 (proj2 (createCrudRouter_routes
                         (CrudRouter.mkParams "user" None None None)))).
  apply lookup_empty.
Defined.

(** X16: the metadata handed to the contract always has the key
    [authentication], whatever the caller passes; its keys are that key and
    the caller's; with no [metadata] it is the single entry [authentication],
    [true] unless the parameter says otherwise. *)
Theorem createCrudRouter_metadata_keys (p : CrudRouter.Params) :
  let given := CrudRouter.with_default ∅ (CrudRouter.metadata p) in
  let result := CrudRouter.options_metadata (CrudRouter.createCrudRouter p) in
  is_Some (result !! "authentication")
  /\ (forall k, is_Some (result !! k) <-> k = "authentication" \/ is_Some (given !! k))
  /\ (CrudRouter.metadata p = None ->
      result
      = {[ "authentication" :=
             VBoolean (CrudRouter.with_default true (CrudRouter.authentication p)) ]}).
Proof.
  unfold CrudRouter.createCrudRouter, CrudRouter.spread. simpl.
  set (given := CrudRouter.with_default ∅ (CrudRouter.metadata p)).
  assert (Hkeys : forall k,
             is_Some ((given ∪ {[ "authentication" :=
                 VBoolean (CrudRouter.with_default true (CrudRouter.authentication p)) ]})
                        !! k)
             <-> k = "authentication" \/ is_Some (given !! k)).
  { intros k. rewrite lookup_union_is_Some. split.
    - intros [H | H]; [right; exact H|left].
      destruct (decide (k = "authentication")) as [->|Hne]; [reflexivity|].
      rewrite lookup_singleton_ne in H by congruence. destruct H as [? H]. discriminate H.
    - intros [-> | H]; [right|left; exact H].
      rewrite lookup_singleton_eq. eexists; reflexivity. }
  split; [apply Hkeys; left; reflexivity|]. split; [exact Hkeys|].
  intros Hnone. subst given. rewrite Hnone. simpl. apply (left_id_L ∅ (∪)).
Qed.

Lemma createCrudRouter_metadata_keys_witness :
  CrudRouter.options_metadata
    (CrudRouter.createCrudRouter (CrudRouter.mkParams "user" None (Some false) None))
  = {[ "authentication" := VBoolean false ]}.
Proof.
  apply (proj2 (proj2 (createCrudRouter_metadata_keys
                         (CrudRouter.mkParams "user" None (Some false) None)))).
  reflexivity.
Defined.

(** ** Populate fields among the keys of the schema *)

(** X17: the populate fields are top-level keys of the schema, in the
    schema's order and each at most as often as the schema has it: no nested
    path and no name from inside a field is ever selected. *)
Theorem QueryPopulateFields_sublist (rel : Shape -> Shape -> bool) (T : ZodType) :
  sublist (QueryPopulateFields rel T) (keys (shape_of T))
  /\ (NoDup (keys (shape_of T)) -> NoDup (QueryPopulateFields rel T)).
Proof.
  assert (Hsub : sublist (QueryPopulateFields rel T) (keys (shape_of T))).
  { unfold QueryPopulateFields, NonNeverKeys, QueryPopulateFieldFilter, keys.
    induction (shape_of T) as [|[K field] rest IH]; [constructor|].
    simpl. destruct (QueryPopulateFieldFilter_at rel K field); simpl.
    - apply sublist_skip. exact IH.
    - apply sublist_cons. exact IH. }
  split; [exact Hsub|].
  intros Hnodup. exact (sublist_NoDup _ _ Hnodup Hsub).
Qed.

Lemma QueryPopulateFields_sublist_witness :
  NoDup (QueryPopulateFields keys_strict_subtype schema_author_title).
Proof.
  apply (QueryPopulateFields_sublist keys_strict_subtype schema_author_title).
  apply (bool_decide_unpack _). vm_compute. reflexivity.
Defined.

(** X18: a [Date] is an object for the relational-operator schemas, which
    have optional fields only: the filter schema of a String or Number leaf
    accepts every [Date], which the leaf itself rejects. *)
Theorem getFilterSchema_accepts_Date (T : ZodType) (ms : Z) :
  T = ZodString \/ T = ZodNumber ->
  accepts T (VDate ms) = false
  /\ accepts (getFilterSchema T) (VDate ms) = true.
Proof. intros [-> | ->]; split; reflexivity. Qed.

Lemma getFilterSchema_accepts_Date_witness :
  accepts (getFilterSchema ZodString) (VDate 0) = true.
Proof.
  apply (getFilterSchema_accepts_Date ZodString 0). left; reflexivity.
Defined.

(** ** The root of the flattener *)

(** Through [MergeFlattened] the [never] of a root that is not an object
    becomes the type without properties. *)
Lemma MergeFlattened_not_object (T : ZodType) :
  is_ZodObject T = false -> MergeFlattened T = Some [].
Proof. intros HT. destruct T; try reflexivity. discriminate HT. Qed.

(** C6: at every path and at every depth below the guard, the default depth
    included, the flattener [FlattenZodObjectWithTypes] gives [never] exactly
    when its root is not an object schema; on every object root it succeeds,
    and what it returns is a mapping from paths that start with the given
    path to query types, computed from the schema alone. *)
Theorem flatten_never_iff_not_object (T : ZodType) (Path : string) (D : Depth) :
  Depth_extends_1 D = false ->
  (FlattenZodObjectWithTypes T Path D = None <-> is_ZodObject T = false)
  /\ (is_ZodObject T = true ->
      exists m,
        FlattenZodObjectWithTypes T Path D = Some m
        /\ Forall (fun e => (exists suffix, fst e = Path +:+ suffix)
                            /\ exists t, snd e = QueryTypes t) m).
Proof.
  intros HD. unfold FlattenZodObjectWithTypes. rewrite HD. split.
  - destruct T; split; intros H; try reflexivity; discriminate H.
  - intros HT. destruct T; try discriminate HT.
    eexists. split; [reflexivity|].
    unfold flatten_fields. apply List.Forall_forall. intros e He.
    apply in_flat_map in He as (f & _ & He). split.
    + rewrite FlattenZodFieldWithTypes_prefix in He. unfold prefix_keys in He.
      apply in_map_iff in He as (e0 & <- & _). exists (fst e0). reflexivity.
    + exact (proj1 (List.Forall_forall _ _)
               (FlattenZodFieldWithTypes_values (snd f) _ _) e He).
Qed.

Lemma flatten_never_iff_not_object_witness :
  FlattenZodObjectWithTypes ZodString "" (DepthLit 0) = None.
Proof.
  apply (proj1 (flatten_never_iff_not_object ZodString "" (DepthLit 0) eq_refl)).
  reflexivity.
Defined.
